(** * COVID-19 dashboard: the filtering and derived-metric layer

    A shallow embedding of [creating-dashboard.py]: the selection of one
    country's rows, the latest-row metric cards, the moving averages, the
    case-fatality column and the vaccination figures, with the script's
    module-level names kept as fields of an explicit record of globals.

    Conventions of the embedding.
    - A numeric cell read from the CSV is [option Qc]: [None] is pandas'
      missing marker (NaN).  Finite floats are taken as exact rationals,
      so rounding, overflow and signed zeros are not modelled.  Numeric
      columns are float64, the type pandas gives a column that has a
      missing value or a decimal point; a column read as int64 differs
      only where line 288 subtracts two such cells, whose difference
      wraps around past 2^63.
    - A value computed by numpy scalar arithmetic is a [float], which adds
      the two infinities and NaN; [pd.NA] and NaN are both the missing
      marker [NaN].
    - A date is [option Z], an integer time stamp; [None] is NaT.  The
      samples write a day as the number yyyymmdd, which keeps the order
      of the calendar.
    - Widget and chart calls only consume values; what they receive is
      recorded, their rendering is not modelled. *)

From Stdlib Require Import String.
From Stdlib Require Import List ZArith QArith Qcanon Bool Arith Lia.
From Stdlib Require Import Permutation Sorted.
Import ListNotations.

Local Open Scope Z_scope.

(** ** Numbers *)

Definition cell := option Qc.

Inductive float : Type :=
| Fin (q : Qc)
| PInf
| NInf
| NaN.

Definition of_cell (c : cell) : float :=
  match c with
  | Some q => Fin q
  | None => NaN
  end.

(** [pd.notna] on a scalar. *)
Definition notna (x : float) : bool :=
  match x with
  | NaN => false
  | _ => true
  end.

Definition Qc_is_zero (q : Qc) : bool := Qc_eq_bool q (Q2Qc 0).
Definition Qc_is_neg (q : Qc) : bool :=
  match (q ?= Q2Qc 0)%Qc with Lt => true | _ => false end.

(** [x / y] on float64 scalars and columns: a zero divisor gives an
    infinity, or NaN for [0 / 0], with a warning and no exception. *)
Definition truediv (x y : float) : float :=
  match x, y with
  | NaN, _ | _, NaN => NaN
  | Fin a, Fin b =>
      if Qc_is_zero b
      then (if Qc_is_zero a then NaN else if Qc_is_neg a then NInf else PInf)
      else Fin (a / b)%Qc
  | Fin _, (PInf | NInf) => Fin (Q2Qc 0)
  | (PInf | NInf), (PInf | NInf) => NaN
  | PInf, Fin b => if Qc_is_neg b then NInf else PInf
  | NInf, Fin b => if Qc_is_neg b then PInf else NInf
  end.

Definition fmul (x y : float) : float :=
  match x, y with
  | NaN, _ | _, NaN => NaN
  | Fin a, Fin b => Fin (a * b)%Qc
  | Fin a, PInf | PInf, Fin a =>
      if Qc_is_zero a then NaN else if Qc_is_neg a then NInf else PInf
  | Fin a, NInf | NInf, Fin a =>
      if Qc_is_zero a then NaN else if Qc_is_neg a then PInf else NInf
  | PInf, PInf | NInf, NInf => PInf
  | PInf, NInf | NInf, PInf => NInf
  end.

Definition hundred : Qc := Q2Qc 100.

(** ** Rows and frames *)

(** One row of [cleaned_covid_data.csv] after [pd.to_datetime] has parsed
    the date column; the fields are the columns the script reads. *)
Record Row : Type := mkRow {
  location : option string;
  date : option Z;
  total_cases : cell;
  total_deaths : cell;
  new_cases : cell;
  new_deaths : cell;
  people_vaccinated : cell;
  population : cell;
  stringency_index : cell;
  median_age : cell;
  population_density : cell;
  gdp_per_capita : cell;
  human_development_index : cell
}.

(** The numeric columns by name, as [row[key]] and [row.get(key)] find
    them; a name outside the table is a missing key. *)
Definition numeric_column (key : string) : option (Row -> cell) :=
  if String.eqb key "total_cases" then Some total_cases
  else if String.eqb key "total_deaths" then Some total_deaths
  else if String.eqb key "new_cases" then Some new_cases
  else if String.eqb key "new_deaths" then Some new_deaths
  else if String.eqb key "people_vaccinated" then Some people_vaccinated
  else if String.eqb key "population" then Some population
  else if String.eqb key "stringency_index" then Some stringency_index
  else if String.eqb key "median_age" then Some median_age
  else if String.eqb key "population_density" then Some population_density
  else if String.eqb key "gdp_per_capita" then Some gdp_per_capita
  else if String.eqb key "human_development_index"
       then Some human_development_index
  else None.

(** [Series.get(key, default)]: the default answers a missing key only; a
    stored NaN is returned as it is. *)
Definition get (r : Row) (key : string) (default : float) : float :=
  match numeric_column key with
  | Some col => of_cell (col r)
  | None => default
  end.

(** A frame: its rows, and the columns the script assigns to it by
    [frame[name] = values], in assignment order. *)
Record DataFrame : Type := mkFrame {
  rows : list Row;
  assigned : list (string * list float)
}.

Definition frame_of (l : list Row) : DataFrame := mkFrame l [].

(** [frame[name] = values]: replaces the column of that name or appends a
    new one, in the frame itself. *)
Fixpoint set_column (name : string) (values : list float)
    (cols : list (string * list float)) : list (string * list float) :=
  match cols with
  | [] => [(name, values)]
  | (n, v) :: cols' =>
      if String.eqb n name then (name, values) :: cols'
      else (n, v) :: set_column name values cols'
  end.

Definition setitem (f : DataFrame) (name : string) (values : list float)
    : DataFrame :=
  mkFrame (rows f) (set_column name values (assigned f)).

Definition column_names (f : DataFrame) : list string :=
  map fst (assigned f).

(** [frame.copy()]: a new frame of equal contents. *)
Definition copy (f : DataFrame) : DataFrame := mkFrame (rows f) (assigned f).

(** ** Dates *)

(** The order [sort_values('date')] sorts by: ascending, NaT last. *)
Definition date_leb (a b : option Z) : bool :=
  match a, b with
  | Some x, Some y => x <=? y
  | _, None => true
  | None, Some _ => false
  end.

Definition date_le (a b : option Z) : Prop := date_leb a b = true.

Definition date_eqb (a b : option Z) : bool :=
  match a, b with
  | Some x, Some y => x =? y
  | None, None => true
  | _, _ => false
  end.

(** [column >= bound] and [column <= bound] on a datetime column: a
    comparison with NaT is [False]. *)
Definition date_ge (d : option Z) (bound : Z) : bool :=
  match d with
  | Some x => bound <=? x
  | None => false
  end.

Definition date_lt_eq (d : option Z) (bound : Z) : bool :=
  match d with
  | Some x => x <=? bound
  | None => false
  end.

Definition by_date (a b : Row) : Prop := date_le (date a) (date b).

(** ** Sorting *)

(** [DataFrame.sort_values('date')] with its default [kind='quicksort'].
    pandas documents the result as the rows in ascending order of the key
    with missing keys last, and documents only [mergesort] and [stable]
    as stable; so the sort is taken by its contract: some rearrangement
    of the rows that is ordered by date.  Two sorts that meet it are
    given further down: a stable insertion sort, and the quicksort
    numpy runs for the call. *)
Class SortValues : Type := {
  sort_values : list Row -> list Row;
  sort_values_perm : forall l, Permutation l (sort_values l);
  sort_values_sorted : forall l, StronglySorted by_date (sort_values l)
}.

(** ** The filter (lines 107 to 112) *)

(** [df['location'] == country]: false on a missing location. *)
Definition location_is (country : string) (r : Row) : bool :=
  match location r with
  | Some s => String.eqb s country
  | None => false
  end.

Definition in_range (d0 d1 : Z) (r : Row) : bool :=
  date_ge (date r) d0 && date_lt_eq (date r) d1.

(** [date_range] is the tuple the date widget returns.  The match on a
    two-element list is the test [len(date_range) == 2]. *)
Definition filter_data `{SortValues} (df : list Row) (country : string)
    (date_range : list Z) : list Row :=
  let filtered_df := sort_values (filter (location_is country) df) in
  match date_range with
  | [d0; d1] => filter (in_range d0 d1) filtered_df
  | _ => filtered_df
  end.

(** ** Columns and the derived series *)

Definition column (col : Row -> cell) (l : list Row) : list float :=
  map (fun r => of_cell (col r)) l.

(** [Series.replace(0, pd.NA)]. *)
Definition replace_zero_na (x : float) : float :=
  match x with
  | Fin q => if Qc_is_zero q then NaN else Fin q
  | _ => x
  end.

(** Elementwise [a / b] and [a * k] of two columns of one frame. *)
Definition series_truediv (a b : list float) : list float :=
  map (fun p => truediv (fst p) (snd p)) (combine a b).

Definition series_mul (a : list float) (k : float) : list float :=
  map (fun x => fmul x k) a.

(** Line 253: [total_deaths / total_cases.replace(0, pd.NA) * 100]. *)
Definition cfr_column (l : list Row) : list float :=
  series_mul
    (series_truediv (column total_deaths l)
                    (map replace_zero_na (column total_cases l)))
    (Fin hundred).

(** What a rolling window counts as an observation: a finite value. *)
Definition observation (x : float) : option Qc :=
  match x with
  | Fin q => Some q
  | _ => None
  end.

Fixpoint observations (l : list float) : list Qc :=
  match l with
  | [] => []
  | x :: l' =>
      match observation x with
      | Some q => q :: observations l'
      | None => observations l'
      end
  end.

Definition Qc_sum (l : list Qc) : Qc := fold_right Qcplus (Q2Qc 0) l.

Definition Qc_of_nat (n : nat) : Qc := Q2Qc (inject_Z (Z.of_nat n)).

(** The window that ends at index [i]: indices [i - w + 1] to [i], cut at
    the start of the column. *)
Definition rolling_window (w i : nat) (xs : list float) : list float :=
  firstn (i + 1 - (i + 1 - w)) (skipn (i + 1 - w) xs).

(** [Series.rolling(window=w).mean()]: [min_periods] defaults to [w]; an
    index whose window holds fewer than [min_periods] observations gets
    NaN, the others the sum of the observations over their number. *)
Definition rolling_value (w min_periods i : nat) (xs : list float) : float :=
  let obs := observations (rolling_window w i xs) in
  if (min_periods <=? length obs)%nat
  then Fin (Qc_sum obs / Qc_of_nat (length obs))%Qc
  else NaN.

Definition rolling_mean (w : nat) (xs : list float) : list float :=
  map (fun i => rolling_value w w i xs) (seq 0 (length xs)).

(** ** The script *)

Inductive exn : Type :=
| NameError (name : string)
| KeyError (key : string)
| IndexError.

Inductive result (A : Type) : Type :=
| Ok (a : A)
| Raise (e : exn).

Arguments Ok {A} a.
Arguments Raise {A} e.

Definition bind {A B : Type} (c : result A) (k : A -> result B) : result B :=
  match c with
  | Ok a => k a
  | Raise e => Raise e
  end.

Notation "x <- c ;; k" := (bind c (fun x => k))
  (at level 61, c at next level, right associativity).

(** The module-level names the metric code binds; [None] is a name that
    has not been assigned. *)
Record Globals : Type := mkGlobals {
  filtered_df : DataFrame;
  latest_data : option Row;
  var_total_cases : option float;
  var_total_deaths : option float;
  var_new_cases : option float;
  vaccination_rate : option float;
  filtered_df_copy : option DataFrame;
  vaccinated : option float;
  unvaccinated : option float;
  vaccination_percentage : option float;
  latest : option (option Row)
}.

(** Reading a name. *)
Definition name {A : Type} (id : string) (v : option A) : result A :=
  match v with
  | Some a => Ok a
  | None => Raise (NameError id)
  end.

(** [row[key]]. *)
Definition getitem (r : Row) (key : string) : result float :=
  match numeric_column key with
  | Some col => Ok (of_cell (col r))
  | None => Raise (KeyError key)
  end.

(** [frame.iloc[-1]]. *)
Fixpoint iloc_last (l : list Row) : result Row :=
  match l with
  | [] => Raise IndexError
  | [r] => Ok r
  | _ :: l' => iloc_last l'
  end.

(** [x - y] on float64 scalars.  Two cells of columns that pandas read
    as int64 would be subtracted in 64-bit integers, which wrap around
    past 2^63; integer columns are outside the model (see the
    conventions at the top). *)
Definition fsub (x y : float) : float :=
  match x, y with
  | NaN, _ | _, NaN => NaN
  | Fin a, Fin b => Fin (a - b)%Qc
  | PInf, PInf | NInf, NInf => NaN
  | PInf, _ | _, NInf => PInf
  | NInf, _ | _, PInf => NInf
  end.

(** [pd.notna(row.get(a)) and pd.notna(row.get(b))]; [get] without a
    default answers [None], which [pd.notna] rejects like NaN. *)
Definition both_present (r : Row) (a b : string) : bool :=
  notna (get r a NaN) && notna (get r b NaN).

(** Lines 107 to 112. *)
Definition filter_stage `{SortValues} (df : list Row) (country : string)
    (date_range : list Z) : Globals :=
  mkGlobals (frame_of (filter_data df country date_range))
            None None None None None None None None None None.

(** Lines 148 to 150. *)
Definition compute_vaccination_rate (r : Row) : result float :=
  if both_present r "people_vaccinated" "population"
  then v <- getitem r "people_vaccinated" ;;
       p <- getitem r "population" ;;
       Ok (fmul (truediv v p) (Fin hundred))
  else Ok (Fin (Q2Qc 0)).

(** Lines 115 to 156: the metric cards. *)
Definition key_metrics (g : Globals) : result Globals :=
  match rows (filtered_df g) with
  | [] => Ok g
  | _ :: _ =>
      r <- iloc_last (rows (filtered_df g)) ;;
      rate <- compute_vaccination_rate r ;;
      Ok (mkGlobals (filtered_df g) (Some r)
            (Some (get r "total_cases" (Fin (Q2Qc 0))))
            (Some (get r "total_deaths" (Fin (Q2Qc 0))))
            (Some (get r "new_cases" (Fin (Q2Qc 0))))
            (Some rate)
            (filtered_df_copy g) (vaccinated g) (unvaccinated g)
            (vaccination_percentage g) (latest g))
  end.

Definition with_filtered_df (g : Globals) (f : DataFrame) : Globals :=
  mkGlobals f (latest_data g) (var_total_cases g) (var_total_deaths g)
            (var_new_cases g) (vaccination_rate g) (filtered_df_copy g)
            (vaccinated g) (unvaccinated g) (vaccination_percentage g)
            (latest g).

(** Lines 221 and 222: the two moving averages are assigned to the frame
    itself. *)
Definition assign_moving_averages (f : DataFrame) : DataFrame :=
  let f1 := setitem f "new_cases_ma"
              (rolling_mean 7 (column new_cases (rows f))) in
  setitem f1 "new_deaths_ma"
          (rolling_mean 7 (column new_deaths (rows f1))).

(** Lines 220 to 222: [filtered_df] is the frame assigned to. *)
Definition moving_averages (show_moving_avg : bool) (g : Globals)
    : result Globals :=
  let f := filtered_df g in
  if show_moving_avg && (7 <? List.length (rows f))%nat
  then Ok (with_filtered_df g (assign_moving_averages f))
  else Ok g.

(** Lines 252 and 253: the ratio is assigned to a copy. *)
Definition case_fatality (g : Globals) : result Globals :=
  let c := copy (filtered_df g) in
  let c' := setitem c "cfr" (cfr_column (rows c)) in
  Ok (mkGlobals (filtered_df g) (latest_data g) (var_total_cases g)
        (var_total_deaths g) (var_new_cases g) (vaccination_rate g)
        (Some c') (vaccinated g) (unvaccinated g)
        (vaccination_percentage g) (latest g)).

(** Lines 284 to 347: the pie reads [latest_data] and the gauge reads
    [vaccination_rate], under no test of emptiness. *)
Definition vaccination_progress (g : Globals) : result Globals :=
  r <- name "latest_data" (latest_data g) ;;
  pie <- (if both_present r "people_vaccinated" "population"
          then v <- getitem r "people_vaccinated" ;;
               p <- getitem r "population" ;;
               Ok (Some v, Some (fsub p v))
          else Ok (vaccinated g, unvaccinated g)) ;;
  rate <- name "vaccination_rate" (vaccination_rate g) ;;
  Ok (mkGlobals (filtered_df g) (latest_data g) (var_total_cases g)
        (var_total_deaths g) (var_new_cases g) (vaccination_rate g)
        (filtered_df_copy g) (fst pie) (snd pie) (Some rate) (latest g)).

(** [frame.dropna(subset=['median_age', 'population_density',
    'gdp_per_capita'])]. *)
Definition has_profile (r : Row) : bool :=
  match median_age r, population_density r, gdp_per_capita r with
  | Some _, Some _, Some _ => true
  | _, _, _ => false
  end.

(** Lines 379 to 419: the profile cards. *)
Definition country_profile (g : Globals) : result Globals :=
  match rows (filtered_df g) with
  | [] => Ok g
  | _ :: _ =>
      let kept := filter has_profile (rows (filtered_df g)) in
      l <- (if (0 <? length kept)%nat
            then r <- iloc_last kept ;; Ok (Some r)
            else Ok None) ;;
      Ok (mkGlobals (filtered_df g) (latest_data g) (var_total_cases g)
            (var_total_deaths g) (var_new_cases g) (vaccination_rate g)
            (filtered_df_copy g) (vaccinated g) (unvaccinated g)
            (vaccination_percentage g) (Some l))
  end.

(** One run of the script from the filter on, for one state of the
    widgets.  [show_trends] only picks a fill style. *)
Definition dashboard `{SortValues} (df : list Row) (country : string)
    (date_range : list Z) (show_trends show_moving_avg : bool)
    : result Globals :=
  g1 <- key_metrics (filter_stage df country date_range) ;;
  g2 <- moving_averages show_moving_avg g1 ;;
  g3 <- case_fatality g2 ;;
  g4 <- vaccination_progress g3 ;;
  country_profile g4.

(** [frame[name]] on an assigned column. *)
Fixpoint lookup_column (name : string) (cols : list (string * list float))
    : option (list float) :=
  match cols with
  | [] => None
  | (n, v) :: cols' =>
      if String.eqb n name then Some v else lookup_column name cols'
  end.

Definition assigned_column (name : string) (f : DataFrame)
    : option (list float) :=
  lookup_column name (assigned f).

(** ** The sidebar (lines 81 to 99) *)

(** [Series.dropna()] on the location column. *)
Fixpoint dropna (l : list (option string)) : list string :=
  match l with
  | [] => []
  | Some s :: l' => s :: dropna l'
  | None :: l' => dropna l'
  end.

(** [Series.unique()]: each value once, in order of first appearance. *)
Fixpoint unique (l : list string) : list string :=
  match l with
  | [] => []
  | s :: l' => s :: filter (fun t => negb (String.eqb t s)) (unique l')
  end.

(** Line 81. *)
Definition countries (df : list Row) : list string :=
  unique (dropna (map location df)).

(** [sorted] on strings: ascending code points, which is the order of
    the bytes of their UTF-8 form. *)
Fixpoint insert_string (s : string) (l : list string) : list string :=
  match l with
  | [] => [s]
  | t :: l' => if String.leb s t then s :: l else t :: insert_string s l'
  end.

Definition sorted (l : list string) : list string :=
  fold_right insert_string [] l.

(** The options of the country select box (line 84). *)
Definition country_options (df : list Row) : list string :=
  sorted (countries df).

(** [Series.min()] and [Series.max()] on the date column skip NaT and
    answer NaT when no date is left. *)
Definition skipna (f : Z -> Z -> Z) (a b : option Z) : option Z :=
  match a, b with
  | Some x, Some y => Some (f x y)
  | Some x, None => Some x
  | None, _ => b
  end.

Definition min_date (df : list Row) : option Z :=
  fold_right (fun r acc => skipna Z.min (date r) acc) None df.

Definition max_date (df : list Row) : option Z :=
  fold_right (fun r acc => skipna Z.max (date r) acc) None df.

(** The row the profile cards read (line 380): the last row that has the
    three profile columns, or [None]. *)
Definition profile_row (l : list Row) : option Row :=
  match iloc_last (filter has_profile l) with
  | Ok r => Some r
  | Raise _ => None
  end.

(** ** Reference notions the properties are stated with *)

(** The rows a selection picks, in the order of the data set. *)
Definition selected (df : list Row) (country : string)
    (date_range : list Z) : list Row :=
  match date_range with
  | [d0; d1] => filter (in_range d0 d1) (filter (location_is country) df)
  | _ => filter (location_is country) df
  end.

Definition on_date (d : option Z) (r : Row) : bool := date_eqb (date r) d.

(** [out] keeps the rows of each date in the order they have in [orig]. *)
Definition same_date_order (orig out : list Row) : Prop :=
  forall d, filter (on_date d) out = filter (on_date d) orig.

Definition non_decreasing (l : list Row) : Prop :=
  forall i j a b, (i <= j)%nat ->
    nth_error l i = Some a -> nth_error l j = Some b ->
    date_le (date a) (date b).

(** A value is defined when it is a finite number. *)
Definition defined (x : float) : Prop := exists q, x = Fin q.

(** ** Two admissible sorts *)

(** A stable insertion sort: a row goes before the first row whose date
    is not earlier, so rows of equal date keep their order. *)
Fixpoint insert_row (x : Row) (l : list Row) : list Row :=
  match l with
  | [] => [x]
  | y :: l' =>
      if date_leb (date x) (date y) then x :: l else y :: insert_row x l'
  end.

Definition insertion_sort (l : list Row) : list Row :=
  fold_right insert_row [] l.

(** The sort [sort_values('date')] reaches for a datetime column:
    [nargsort] sets the rows without a date aside, has numpy order the
    others with its indirect quicksort, and appends the rows without a
    date in their data-set order.

    The quicksort follows numpy's [aquicksort_] (npysort/quicksort.cpp):
    it permutes an array of positions [a], comparing the keys [v] they
    point to; a range of more than [SMALL_QUICKSORT] + 1 positions is
    split around the median of its first, middle and last key, a shorter
    range is sorted by insertion. *)
Definition SMALL_QUICKSORT : nat := 16.

Fixpoint set_nth (p : nat) (x : nat) (a : list nat) : list nat :=
  match a, p with
  | [], _ => []
  | _ :: a', O => x :: a'
  | y :: a', S p' => y :: set_nth p' x a'
  end.

Definition INTP_SWAP (p q : nat) (a : list nat) : list nat :=
  let x := nth p a 0%nat in
  let y := nth q a 0%nat in
  set_nth q x (set_nth p y a).

Section Aquicksort.
Variable v : list Z.

(** [v[*p]]. *)
Definition key (a : list nat) (p : nat) : Z := nth (nth p a 0%nat) v 0.

(** The three conditional swaps that order the keys at [pl], [pm], [pr]. *)
Definition median_of_three (a : list nat) (pl pm pr : nat) : list nat :=
  let a1 := if key a pm <? key a pl then INTP_SWAP pm pl a else a in
  let a2 := if key a1 pr <? key a1 pm then INTP_SWAP pr pm a1 else a1 in
  if key a2 pm <? key a2 pl then INTP_SWAP pm pl a2 else a2.

(** [do ++pi; while (v[*pi] < vp)]. *)
Fixpoint scan_up (fuel : nat) (vp : Z) (a : list nat) (pi : nat) : nat :=
  match fuel with
  | O => pi
  | S f =>
      if key a (S pi) <? vp then scan_up f vp a (S pi) else S pi
  end.

(** [do --pj; while (vp < v[*pj])]. *)
Fixpoint scan_down (fuel : nat) (vp : Z) (a : list nat) (pj : nat) : nat :=
  match fuel with
  | O => pj
  | S f =>
      if vp <? key a (pj - 1) then scan_down f vp a (pj - 1)
      else (pj - 1)%nat
  end.

(** The exchange loop; answers the array and the final [pi]. *)
Fixpoint exchange (fuel : nat) (vp : Z) (a : list nat) (pi pj : nat)
    : list nat * nat :=
  match fuel with
  | O => (a, pi)
  | S f =>
      let pi' := scan_up (List.length a) vp a pi in
      let pj' := scan_down (List.length a) vp a pj in
      if (pj' <=? pi')%nat then (a, pi')
      else exchange f vp (INTP_SWAP pi' pj' a) pi' pj'
  end.

Definition partition (a : list nat) (pl pr : nat) : list nat * nat :=
  let pm := (pl + Nat.div2 (pr - pl))%nat in
  let a1 := median_of_three a pl pm pr in
  let vp := key a1 pm in
  let a2 := INTP_SWAP pm (pr - 1) a1 in
  let '(a3, pi) := exchange (List.length a) vp a2 pl (pr - 1) in
  (INTP_SWAP pi (pr - 1) a3, pi).

(** The inner loop of the insertion sort: positions move up while their
    key is greater than [vp], then [vi] is stored. *)
Fixpoint shift_up (fuel : nat) (pl vi : nat) (vp : Z) (a : list nat)
    (pj : nat) : list nat :=
  match fuel with
  | O => set_nth pj vi a
  | S f =>
      if (pl <? pj)%nat && (vp <? key a (pj - 1))
      then shift_up f pl vi vp (set_nth pj (nth (pj - 1) a 0%nat) a) (pj - 1)
      else set_nth pj vi a
  end.

Definition insertion_range (a : list nat) (pl pr : nat) : list nat :=
  fold_left
    (fun a pi =>
       let vi := nth pi a 0%nat in
       shift_up pi pl vi (nth vi v 0) a pi)
    (seq (S pl) (pr - pl)) a.

(** The range [pl .. pr].  After a split the shorter side is continued
    and the longer one is stacked; a stacked range is tested against the
    depth limit when it is taken up ([check]).  Past the limit numpy
    turns to its heapsort, which is not modelled: the answer is then
    [None]. *)
Fixpoint sort_range (fuel : nat) (check : bool) (cdepth : Z)
    (a : list nat) (pl pr : nat) : option (list nat) :=
  match fuel with
  | O => None
  | S f =>
      if check && (cdepth <? 0) then None
      else if (SMALL_QUICKSORT <? pr - pl)%nat then
        let '(a', pi) := partition a pl pr in
        let c := cdepth - 1 in
        if (pi - pl <? pr - pi)%nat then
          match sort_range f false c a' pl (pi - 1) with
          | Some a'' => sort_range f true c a'' (pi + 1) pr
          | None => None
          end
        else
          match sort_range f false c a' (pi + 1) pr with
          | Some a'' => sort_range f true c a'' pl (pi - 1)
          | None => None
          end
      else Some (insertion_range a pl pr)
  end.

Definition aquicksort : option (list nat) :=
  let num := List.length v in
  sort_range (S num) true (2 * Z.log2 (Z.of_nat num)) (seq 0 num)
             0 (num - 1).

End Aquicksort.

Definition has_date (k : option Z) : bool :=
  match k with
  | Some _ => true
  | None => false
  end.

Fixpoint non_nans (keys : list (option Z)) : list Z :=
  match keys with
  | [] => []
  | Some z :: keys' => z :: non_nans keys'
  | None :: keys' => non_nans keys'
  end.

(** [nargsort] with [na_position='last']. *)
Definition nargsort (keys : list (option Z)) : option (list nat) :=
  let idx := seq 0 (List.length keys) in
  let non_nan_idx := filter (fun i => has_date (nth i keys None)) idx in
  let nan_idx := filter (fun i => negb (has_date (nth i keys None))) idx in
  match aquicksort (non_nans keys) with
  | Some order =>
      Some (map (fun j => nth j non_nan_idx 0%nat) order ++ nan_idx)
  | None => None
  end.

Definition blank : Row :=
  mkRow None None None None None None None None None None None None None.

(** [frame.take(indexer)]. *)
Definition take (indexer : list nat) (l : list Row) : list Row :=
  map (fun i => nth i l blank) indexer.

Definition is_order (indexer : list nat) (n : nat) : bool :=
  (List.length indexer =? n)%nat
  && forallb (fun i => existsb (Nat.eqb i) indexer) (seq 0 n).

Fixpoint ordered_by_date (l : list Row) : bool :=
  match l with
  | [] => true
  | x :: l' =>
      forallb (fun y => date_leb (date x) (date y)) l' && ordered_by_date l'
  end.

(** The rows in the order of [nargsort].  The order is checked to be a
    rearrangement that is ordered by date; where the quicksort is not
    modelled, or should the check fail, the stable insertion sort
    answers. *)
Definition quicksort_rows (l : list Row) : list Row :=
  match nargsort (map date l) with
  | Some indexer =>
      if is_order indexer (List.length l) && ordered_by_date (take indexer l)
      then take indexer l
      else insertion_sort l
  | None => insertion_sort l
  end.

(** The case-fatality value of one row, as line 253 computes it. *)
Definition cfr_of_row (r : Row) : float :=
  fmul (truediv (of_cell (total_deaths r))
                (replace_zero_na (of_cell (total_cases r))))
       (Fin hundred).

(** ** Sample data *)

Definition sample (loc : string) (d : Z) (cases deaths : cell) : Row :=
  mkRow (Some loc) (Some d) cases deaths None None None None None None None
        None None.

Definition qc (n : Z) : cell := Some (Q2Qc (inject_Z n)).

Definition with_vaccination (vaccinated_people pop : cell) : Row :=
  mkRow (Some "US"%string) (Some 20210101) None None None None
        vaccinated_people pop None None None None None.

Definition daily (d : Z) (cases deaths : cell) : Row :=
  mkRow (Some "US"%string) (Some d) None None cases deaths None None None
        None None None None.

Definition week : list Row :=
  [daily 20210101 (qc 7) (qc 0); daily 20210102 (qc 14) (qc 0);
   daily 20210103 (qc 21) (qc 1); daily 20210104 (qc 28) (qc 0);
   daily 20210105 (qc 35) (qc 2); daily 20210106 (qc 42) (qc 0);
   daily 20210107 (qc 49) (qc 1)].

Definition eight_days : list Row := week ++ [daily 20210108 (qc 56) (qc 3)].

Definition two_countries : list Row :=
  [sample "US" 20210101 (qc 100) (qc 2);
   sample "France" 20210301 (qc 10) (qc 1)].

Definition missing_total_cases : Row := sample "US" 20210101 None (qc 2).

Definition undated : Row :=
  mkRow (Some "US"%string) None (qc 5) None None None None None None None
        None None None.

Definition gap_week : list Row :=
  [daily 20210101 (qc 7) (qc 0); daily 20210102 None (qc 0)] ++ week.

Definition string_le (a b : string) : Prop := String.leb a b = true.

(** Twenty rows of one country on one day, told apart by total_cases,
    and the same rows with rows of another country between them. *)
Definition tied : list Row :=
  map (fun n => sample "US" 20210101 (qc n) None)
      [1; 2; 3; 4; 5; 6; 7; 8; 9; 10; 11; 12; 13; 14; 15; 16; 17; 18; 19; 20].

Definition tied_among_others : list Row :=
  flat_map (fun n => [sample "France" 20210301 (qc n) None;
                      sample "US" 20210301 (qc (100 + n)) None])
      [1; 2; 3; 4; 5; 6; 7; 8; 9; 10; 11; 12; 13; 14; 15; 16; 17; 18; 19; 20].

(** The globals right after the filter has produced [l]. *)
Definition series_of (l : list Row) : Globals :=
  mkGlobals (frame_of l) None None None None None None None None None None.

(** * Properties *)

(** ** Arithmetic helpers *)

Lemma Qc_is_zero_true (q : Qc) : Qc_is_zero q = true <-> q = Q2Qc 0.
Proof.
  unfold Qc_is_zero, Qc_eq_bool.
  destruct (Qc_eq_dec q (Q2Qc 0)); split; congruence.
Qed.

Lemma Qc_is_zero_false (q : Qc) : Qc_is_zero q = false <-> q <> Q2Qc 0.
Proof.
  unfold Qc_is_zero, Qc_eq_bool.
  destruct (Qc_eq_dec q (Q2Qc 0)); split; congruence.
Qed.

Lemma Qc_pos_not_zero (q : Qc) : (Q2Qc 0 < q)%Qc -> Qc_is_zero q = false.
Proof.
  intros H. apply Qc_is_zero_false. intros ->.
  exact (Qclt_not_eq _ _ H eq_refl).
Qed.

(** ** Dates *)

Lemma date_le_refl (d : option Z) : date_le d d.
Proof. destruct d; unfold date_le; simpl; [apply Z.leb_refl | reflexivity]. Qed.

Lemma date_le_trans (a b c : option Z) :
  date_le a b -> date_le b c -> date_le a c.
Proof.
  unfold date_le; destruct a, b, c; simpl; try congruence.
  rewrite !Z.leb_le; lia.
Qed.

Lemma date_leb_total (a b : option Z) :
  date_leb a b = false -> date_leb b a = true.
Proof.
  destruct a, b; simpl; try congruence.
  rewrite Z.leb_gt, Z.leb_le; lia.
Qed.

(** ** Lists *)

Lemma filter_Permutation {A : Type} (f : A -> bool) (l l' : list A) :
  Permutation l l' -> Permutation (filter f l) (filter f l').
Proof.
  induction 1; simpl.
  - constructor.
  - destruct (f x); auto.
  - destruct (f x), (f y); auto using perm_swap.
  - eapply perm_trans; eauto.
Qed.

Lemma filter_StronglySorted {A : Type} (R : A -> A -> Prop) (f : A -> bool)
    (l : list A) :
  StronglySorted R l -> StronglySorted R (filter f l).
Proof.
  induction 1 as [|x l Hs IH Hall]; simpl; [constructor|].
  destruct (f x); [|assumption].
  constructor; [assumption|].
  rewrite Forall_forall in *. intros y Hy.
  apply filter_In in Hy. apply Hall, Hy.
Qed.

Lemma StronglySorted_nth {A : Type} (R : A -> A -> Prop) (l : list A) :
  StronglySorted R l ->
  forall i j a b, (i < j)%nat ->
    nth_error l i = Some a -> nth_error l j = Some b -> R a b.
Proof.
  induction 1 as [|x l Hs IH Hall]; intros i j a b Hij Hi Hj.
  - destruct i; discriminate.
  - destruct j as [|j]; [lia|]. simpl in Hj.
    destruct i as [|i]; simpl in Hi.
    + injection Hi as ->. rewrite Forall_forall in Hall.
      apply Hall. eapply nth_error_In; eauto.
    + apply (IH i j); auto; lia.
Qed.

Lemma StronglySorted_non_decreasing (l : list Row) :
  StronglySorted by_date l -> non_decreasing l.
Proof.
  intros Hs i j a b Hij Hi Hj.
  destruct (Nat.eq_dec i j) as [->|Hne].
  - rewrite Hi in Hj. injection Hj as ->. apply date_le_refl.
  - apply (StronglySorted_nth by_date l Hs i j); auto; lia.
Qed.

(** ** The two sorts meet the contract *)

Lemma insert_row_perm (x : Row) (l : list Row) :
  Permutation (x :: l) (insert_row x l).
Proof.
  induction l as [|y l IH]; simpl; [auto|].
  destruct (date_leb (date x) (date y)); [auto|].
  eapply perm_trans; [apply perm_swap|]. auto.
Qed.

Lemma insertion_sort_perm (l : list Row) : Permutation l (insertion_sort l).
Proof.
  induction l as [|x l IH]; simpl; [auto|].
  eapply perm_trans; [|apply insert_row_perm]. auto.
Qed.

Lemma insert_row_sorted (x : Row) (l : list Row) :
  StronglySorted by_date l -> StronglySorted by_date (insert_row x l).
Proof.
  induction 1 as [|y l Hs IH Hall]; simpl.
  - repeat constructor.
  - destruct (date_leb (date x) (date y)) eqn:E.
    + constructor; [constructor; assumption|].
      constructor; [exact E|].
      rewrite Forall_forall in *. intros z Hz.
      eapply date_le_trans; [exact E | apply Hall, Hz].
    + apply date_leb_total in E.
      constructor; [assumption|].
      rewrite Forall_forall in *. intros z Hz.
      apply (Permutation_in _ (Permutation_sym (insert_row_perm x l))) in Hz.
      destruct Hz as [<-|Hz]; [exact E | auto].
Qed.

Lemma insertion_sort_sorted (l : list Row) :
  StronglySorted by_date (insertion_sort l).
Proof.
  induction l as [|x l IH]; simpl; [constructor|].
  apply insert_row_sorted, IH.
Qed.

Definition insertion_sort_values : SortValues :=
  {| sort_values := insertion_sort;
     sort_values_perm := insertion_sort_perm;
     sort_values_sorted := insertion_sort_sorted |}.

Lemma is_order_perm (indexer : list nat) (n : nat) :
  is_order indexer n = true -> Permutation (seq 0 n) indexer.
Proof.
  unfold is_order. rewrite andb_true_iff, Nat.eqb_eq, forallb_forall.
  intros [Hlen Hall].
  apply NoDup_Permutation_bis.
  - apply seq_NoDup.
  - rewrite length_seq. lia.
  - intros i Hi. specialize (Hall i Hi).
    apply existsb_exists in Hall. destruct Hall as (j & Hj & E).
    apply Nat.eqb_eq in E. now subst j.
Qed.

Lemma take_all (l : list Row) : take (seq 0 (List.length l)) l = l.
Proof.
  unfold take. induction l as [|x l IH]; [reflexivity|].
  simpl. f_equal. rewrite <- seq_shift, map_map. exact IH.
Qed.

Lemma take_perm (indexer : list nat) (l : list Row) :
  is_order indexer (List.length l) = true ->
  Permutation l (take indexer l).
Proof.
  intros Hord. rewrite <- (take_all l) at 1.
  apply Permutation_map, is_order_perm, Hord.
Qed.

Lemma ordered_by_date_sorted (l : list Row) :
  ordered_by_date l = true -> StronglySorted by_date l.
Proof.
  induction l as [|x l IH]; simpl; [constructor|].
  rewrite andb_true_iff, forallb_forall. intros [Hall Hrest].
  constructor; [now apply IH|].
  apply Forall_forall. exact Hall.
Qed.

Lemma quicksort_rows_perm (l : list Row) : Permutation l (quicksort_rows l).
Proof.
  unfold quicksort_rows.
  destruct (nargsort (map date l)) as [indexer|];
    [|apply insertion_sort_perm].
  destruct (is_order indexer (List.length l)
            && ordered_by_date (take indexer l)) eqn:E;
    [|apply insertion_sort_perm].
  apply andb_true_iff in E. now apply take_perm.
Qed.

Lemma quicksort_rows_sorted (l : list Row) :
  StronglySorted by_date (quicksort_rows l).
Proof.
  unfold quicksort_rows.
  destruct (nargsort (map date l)) as [indexer|];
    [|apply insertion_sort_sorted].
  destruct (is_order indexer (List.length l)
            && ordered_by_date (take indexer l)) eqn:E;
    [|apply insertion_sort_sorted].
  apply andb_true_iff in E. now apply ordered_by_date_sorted.
Qed.

Definition quicksort_values : SortValues :=
  {| sort_values := quicksort_rows;
     sort_values_perm := quicksort_rows_perm;
     sort_values_sorted := quicksort_rows_sorted |}.

(** ** The filter *)

Section Filter.
Context `{SortValues}.

Lemma filter_data_perm (df : list Row) (country : string)
    (date_range : list Z) :
  Permutation (selected df country date_range)
              (filter_data df country date_range).
Proof.
  unfold selected, filter_data.
  destruct date_range as [|d0 [|d1 [|d2 rest]]];
    try apply sort_values_perm.
  apply filter_Permutation, sort_values_perm.
Qed.

Lemma filter_data_sorted (df : list Row) (country : string)
    (date_range : list Z) :
  StronglySorted by_date (filter_data df country date_range).
Proof.
  unfold filter_data.
  destruct date_range as [|d0 [|d1 [|d2 rest]]];
    try apply sort_values_sorted.
  apply filter_StronglySorted, sort_values_sorted.
Qed.

Lemma filter_data_no_range (df : list Row) (country : string)
    (date_range : list Z) :
  List.length date_range <> 2%nat ->
  filter_data df country date_range
  = sort_values (filter (location_is country) df).
Proof.
  unfold filter_data.
  destruct date_range as [|d0 [|d1 [|d2 rest]]]; simpl; congruence.
Qed.

Lemma in_range_inverted (start stop : Z) (r : Row) :
  stop < start -> in_range start stop r = false.
Proof.
  intros Hlt. unfold in_range, date_ge, date_lt_eq.
  destruct (date r) as [x|]; [|reflexivity].
  apply andb_false_iff.
  destruct (Z.leb_spec start x); [right; apply Z.leb_gt; lia | now left].
Qed.

Lemma filter_all_false {A : Type} (f : A -> bool) (l : list A) :
  (forall x, f x = false) -> filter f l = [].
Proof.
  intros Hf. induction l as [|x l IH]; simpl; [reflexivity|].
  now rewrite Hf.
Qed.

Lemma key_metrics_empty (g : Globals) :
  rows (filtered_df g) = [] -> key_metrics g = Ok g.
Proof. intros E. unfold key_metrics. now rewrite E. Qed.

End Filter.

(** C5, as amended.  For every admissible sort, data set and selection
    the filtered series is ordered non-decreasing by date (NaT last), and
    for each date it holds exactly the selected rows of that date, in
    some order. *)
Theorem filtered_series_ordered `{SortValues} (df : list Row)
    (country : string) (date_range : list Z) :
  non_decreasing (filter_data df country date_range) /\
  forall d, Permutation (filter (on_date d) (selected df country date_range))
                        (filter (on_date d)
                                (filter_data df country date_range)).
Proof.
  split.
  - apply StronglySorted_non_decreasing, filter_data_sorted.
  - intros d. apply filter_Permutation, filter_data_perm.
Qed.

(** C5 as stated fails: of twenty rows of one country on one day, the
    quicksort behind [sort_values] exchanges rows around its pivot, so
    the rows of that day do not keep the order of the data set. *)
Lemma filtered_series_not_stable :
  ~ (non_decreasing
       (@filter_data quicksort_values tied "US" [20210101; 20210131]) /\
     same_date_order
       (selected tied "US" [20210101; 20210131])
       (@filter_data quicksort_values tied "US" [20210101; 20210131])).
Proof.
  intros [_ Hstable].
  specialize (Hstable (Some 20210101)).
  apply (f_equal (map total_cases)) in Hstable.
  vm_compute in Hstable. discriminate Hstable.
Qed.

(** C6, as amended.  For every admissible sort, filtering with no date
    range returns exactly the rows of the data set whose location is the
    selected country, none dropped and none added, ordered by date. *)
Theorem no_range_returns_entity_rows `{SortValues} (df : list Row)
    (country : string) :
  Permutation (filter (location_is country) df) (filter_data df country [])
  /\ non_decreasing (filter_data df country []).
Proof.
  split.
  - apply (filter_data_perm df country []).
  - apply StronglySorted_non_decreasing, filter_data_sorted.
Qed.

(** C6 as stated fails on its last part: with no date range, twenty
    rows of the selected country on one day, interleaved with rows of
    another country, come out in another order than the data set has
    them. *)
Lemma no_range_order_not_preserved :
  ~ (Permutation (filter (location_is "France") tied_among_others)
                 (@filter_data quicksort_values tied_among_others
                    "France" []) /\
     same_date_order
       (filter (location_is "France") tied_among_others)
       (@filter_data quicksort_values tied_among_others "France" [])).
Proof.
  intros [_ Hstable].
  specialize (Hstable (Some 20210301)).
  apply (f_equal (map total_cases)) in Hstable.
  vm_compute in Hstable. discriminate Hstable.
Qed.

(** C10.  With fewer than two bounds in the date range no date test is
    applied: the filtered series is the sorted rows of the country, and
    every row of the country is in it whatever its date. *)
Theorem short_range_is_ignored `{SortValues} (df : list Row)
    (country : string) (date_range : list Z) :
  (List.length date_range < 2)%nat ->
  filter_data df country date_range
  = sort_values (filter (location_is country) df) /\
  forall r, In r df -> location r = Some country ->
            In r (filter_data df country date_range).
Proof.
  intros Hlen.
  assert (E : filter_data df country date_range
              = sort_values (filter (location_is country) df)).
  { apply filter_data_no_range. lia. }
  split; [exact E|].
  intros r Hin Hloc. rewrite E.
  apply (Permutation_in _ (sort_values_perm _)).
  apply filter_In. split; [exact Hin|].
  unfold location_is. rewrite Hloc. apply String.eqb_refl.
Qed.

Lemma short_range_is_ignored_witness :
  (List.length [20210201%Z] < 2)%nat /\
  In (sample "France" 20210115 (qc 10) (qc 1))
     (@filter_data insertion_sort_values
        [sample "France" 20210115 (qc 10) (qc 1);
         sample "France" 20210301 (qc 20) (qc 1)] "France" [20210201]).
Proof.
  split; [simpl; lia|].
  apply (@short_range_is_ignored insertion_sort_values
           [sample "France" 20210115 (qc 10) (qc 1);
            sample "France" 20210301 (qc 20) (qc 1)] "France"%string
           [20210201]).
  - simpl; lia.
  - left; reflexivity.
  - reflexivity.
Defined.

(** ** The vaccination rate *)

Lemma both_present_vaccination (r : Row) :
  both_present r "people_vaccinated" "population"
  = match people_vaccinated r, population r with
    | Some _, Some _ => true
    | _, _ => false
    end.
Proof.
  unfold both_present, get; simpl.
  destruct (people_vaccinated r), (population r); reflexivity.
Qed.

(** C1, as amended.  When people_vaccinated and population are both
    present and population is positive, the vaccination rate is
    people_vaccinated / population * 100; when either is absent it is the
    number 0; no exception is raised in either case. *)
Theorem vaccination_rate_value (r : Row) :
  (forall v p, people_vaccinated r = Some v -> population r = Some p ->
               (Q2Qc 0 < p)%Qc ->
               compute_vaccination_rate r = Ok (Fin (v / p * hundred)%Qc))
  /\
  (people_vaccinated r = None \/ population r = None ->
   compute_vaccination_rate r = Ok (Fin (Q2Qc 0))).
Proof.
  unfold compute_vaccination_rate. rewrite both_present_vaccination.
  split.
  - intros v p Hv Hp Hpos. rewrite Hv, Hp.
    unfold getitem; simpl. rewrite Hv, Hp; simpl.
    now rewrite (Qc_pos_not_zero p Hpos).
  - intros [E|E]; rewrite E; [|destruct (people_vaccinated r)]; reflexivity.
Qed.

Lemma vaccination_rate_value_witness :
  compute_vaccination_rate (with_vaccination (qc 500) (qc 1000))
  = Ok (Fin (Q2Qc (inject_Z 500) / Q2Qc (inject_Z 1000) * hundred)%Qc)
  /\
  compute_vaccination_rate (with_vaccination None (qc 1000))
  = Ok (Fin (Q2Qc 0)).
Proof.
  split.
  - apply (proj1 (vaccination_rate_value
                    (with_vaccination (qc 500) (qc 1000)))
             (Q2Qc (inject_Z 500)) (Q2Qc (inject_Z 1000)) eq_refl eq_refl).
    reflexivity.
  - apply (proj2 (vaccination_rate_value (with_vaccination None (qc 1000)))).
    left; reflexivity.
Defined.

(** C1 as stated fails: with people_vaccinated absent the rate is the
    finite number 0, so it is defined although a value is missing. *)
Lemma vaccination_rate_defined_when_absent :
  ~ (forall r x, compute_vaccination_rate r = Ok x -> defined x ->
       exists v p, people_vaccinated r = Some v /\ population r = Some p /\
                   (Q2Qc 0 < p)%Qc).
Proof.
  intros Hclaim.
  destruct (Hclaim (with_vaccination None (qc 1000)) (Fin (Q2Qc 0))
              eq_refl (ex_intro _ (Q2Qc 0) eq_refl))
    as (v & p & Hv & _).
  discriminate Hv.
Qed.

(** A zero population is not tested for: the division yields an
    infinity, which the card and the gauge then receive. *)
Lemma vaccination_rate_zero_population :
  compute_vaccination_rate (with_vaccination (qc 500) (qc 0)) = Ok PInf.
Proof. reflexivity. Qed.

(** ** The case-fatality ratio *)

Lemma combine_map {A B C : Type} (f : A -> B) (g : A -> C) (l : list A) :
  combine (map f l) (map g l) = map (fun x => (f x, g x)) l.
Proof. induction l as [|x l IH]; simpl; [reflexivity | now rewrite IH]. Qed.

Lemma cfr_column_rows (l : list Row) : cfr_column l = map cfr_of_row l.
Proof.
  unfold cfr_column, series_mul, series_truediv, column.
  rewrite (map_map _ replace_zero_na), combine_map, !map_map. reflexivity.
Qed.

Lemma lookup_set_column (name : string) (v : list float)
    (cols : list (string * list float)) :
  lookup_column name (set_column name v cols) = Some v.
Proof.
  induction cols as [|[n w] cols IH]; simpl.
  - now rewrite String.eqb_refl.
  - destruct (String.eqb n name) eqn:E; simpl.
    + now rewrite String.eqb_refl.
    + now rewrite E.
Qed.

Lemma case_fatality_column (g : Globals) :
  exists g' c,
    case_fatality g = Ok g' /\ filtered_df_copy g' = Some c /\
    filtered_df g' = filtered_df g /\
    assigned_column "cfr" c = Some (cfr_column (rows (filtered_df g))).
Proof.
  eexists. eexists. unfold case_fatality.
  split; [reflexivity|]. split; [reflexivity|]. split; [reflexivity|].
  unfold assigned_column, setitem; simpl. apply lookup_set_column.
Qed.

Lemma cfr_of_row_cases (r : Row) :
  (forall d c, total_deaths r = Some d -> total_cases r = Some c ->
               c <> Q2Qc 0 -> cfr_of_row r = Fin (d / c * hundred)%Qc) /\
  (total_deaths r = None \/ total_cases r = None \/
   total_cases r = Some (Q2Qc 0) -> cfr_of_row r = NaN) /\
  cfr_of_row r <> PInf /\ cfr_of_row r <> NInf.
Proof.
  unfold cfr_of_row.
  destruct (total_deaths r) as [d|], (total_cases r) as [c|]; simpl;
    try destruct (Qc_is_zero c) eqn:E; simpl; try rewrite E;
    repeat split; try discriminate; try reflexivity;
    try (intros d' c' Hd Hc Hne; injection Hd as <-; injection Hc as <-).
  all: try (apply Qc_is_zero_true in E; congruence).
  all: try reflexivity.
  all: try (intros [X|[X|X]]; try discriminate X; injection X as ->;
            apply Qc_is_zero_false in E; now elim E).
Qed.

(** C4, as amended.  For every record of the filtered series the
    case-fatality ratio, computed on a copy of the series, is
    total_deaths / total_cases * 100 when both are present and total_cases
    is not 0; it is undefined when total_cases is 0 or either value is
    absent; and it is never an infinity, so no division by zero occurs. *)
Theorem case_fatality_ratio_value (g : Globals) (i : nat) (r : Row) :
  nth_error (rows (filtered_df g)) i = Some r ->
  exists g' c col x,
    case_fatality g = Ok g' /\ filtered_df_copy g' = Some c /\
    assigned_column "cfr" c = Some col /\ nth_error col i = Some x /\
    (forall d k, total_deaths r = Some d -> total_cases r = Some k ->
                 k <> Q2Qc 0 -> x = Fin (d / k * hundred)%Qc) /\
    (total_deaths r = None \/ total_cases r = None \/
     total_cases r = Some (Q2Qc 0) -> x = NaN) /\
    x <> PInf /\ x <> NInf.
Proof.
  intros Hi.
  destruct (case_fatality_column g) as (g' & c & Hrun & Hc & _ & Hcol).
  exists g', c, (cfr_column (rows (filtered_df g))), (cfr_of_row r).
  split; [exact Hrun|]. split; [exact Hc|]. split; [exact Hcol|].
  split; [|apply cfr_of_row_cases].
  rewrite cfr_column_rows. now apply map_nth_error.
Qed.

Lemma case_fatality_ratio_value_witness :
  exists g' c col,
    case_fatality (series_of [sample "US" 20210101 (qc 100) (qc 2);
                              sample "US" 20210102 (qc 150) (qc 3)])
    = Ok g' /\ filtered_df_copy g' = Some c /\
    assigned_column "cfr" c = Some col /\
    nth_error col 1
    = Some (Fin (Q2Qc (inject_Z 3) / Q2Qc (inject_Z 150) * hundred)%Qc).
Proof.
  destruct (case_fatality_ratio_value
              (series_of [sample "US" 20210101 (qc 100) (qc 2);
                          sample "US" 20210102 (qc 150) (qc 3)])
              1 (sample "US" 20210102 (qc 150) (qc 3)) eq_refl)
    as (g' & c & col & x & Hrun & Hc & Hcol & Hx & Hval & _).
  exists g', c, col. repeat (split; [assumption|]).
  rewrite Hx. f_equal. apply Hval; try reflexivity. discriminate.
Defined.

(** C4 as stated fails: a negative total_cases is not replaced, and the
    ratio is then a finite number although total_cases is not positive. *)
Lemma case_fatality_ratio_defined_on_negative :
  ~ (forall l i r x,
        nth_error l i = Some r -> nth_error (cfr_column l) i = Some x ->
        defined x ->
        exists k, total_cases r = Some k /\ (Q2Qc 0 < k)%Qc).
Proof.
  intros Hclaim.
  destruct (Hclaim [sample "US" 20210101 (qc (-1)) (qc 1)] 0%nat
                   (sample "US" 20210101 (qc (-1)) (qc 1))
                   (cfr_of_row (sample "US" 20210101 (qc (-1)) (qc 1)))
                   eq_refl eq_refl)
    as (k & Hk & Hpos).
  - eexists. reflexivity.
  - injection Hk as <-. vm_compute in Hpos. discriminate Hpos.
Qed.

(** ** The moving averages *)

Lemma observations_length (l : list float) :
  (List.length (observations l) <= List.length l)%nat.
Proof.
  induction l as [|x l IH]; simpl; [lia|].
  destruct (observation x); simpl; lia.
Qed.

Lemma observations_full (l : list float) :
  List.length (observations l) = List.length l ->
  l = map Fin (observations l).
Proof.
  induction l as [|x l IH]; simpl; [reflexivity|].
  pose proof (observations_length l) as Hle.
  destruct x as [q| | |]; simpl; intros E; try lia.
  f_equal. apply IH. lia.
Qed.

Lemma observations_Fin (vs : list Qc) : observations (map Fin vs) = vs.
Proof. induction vs as [|v vs IH]; simpl; [reflexivity | now rewrite IH]. Qed.

Lemma rolling_window_full (i : nat) (xs : list float) :
  (6 <= i)%nat ->
  rolling_window 7 i xs = firstn 7 (skipn (i - 6) xs).
Proof.
  intros Hi. unfold rolling_window.
  replace (i + 1 - 7)%nat with (i - 6)%nat by lia.
  replace (i + 1 - (i - 6))%nat with 7%nat by lia.
  reflexivity.
Qed.

Lemma rolling_window_short (i : nat) (xs : list float) :
  (i < 6)%nat -> (List.length (rolling_window 7 i xs) < 7)%nat.
Proof.
  intros Hi. unfold rolling_window.
  rewrite length_firstn. lia.
Qed.

Lemma rolling_mean_nth (w i : nat) (xs : list float) :
  (i < List.length xs)%nat ->
  nth_error (rolling_mean w xs) i = Some (rolling_value w w i xs).
Proof.
  intros Hi. unfold rolling_mean.
  apply (map_nth_error (fun i => rolling_value w w i xs)).
  rewrite nth_error_nth' with (d := 0%nat) by (now rewrite length_seq).
  now rewrite seq_nth.
Qed.

(** The value of [rolling(window=7).mean()] at one index. *)
Lemma rolling_mean_7 (xs : list float) (i : nat) :
  (i < List.length xs)%nat ->
  exists x, nth_error (rolling_mean 7 xs) i = Some x /\
    (forall vs, (6 <= i)%nat -> firstn 7 (skipn (i - 6) xs) = map Fin vs ->
                x = Fin (Qc_sum vs / Qc_of_nat 7)%Qc) /\
    ((i < 6)%nat \/ ~ (exists vs, firstn 7 (skipn (i - 6) xs) = map Fin vs) ->
     x = NaN).
Proof.
  intros Hi. exists (rolling_value 7 7 i xs).
  split; [now apply rolling_mean_nth|].
  unfold rolling_value. split.
  - intros vs H6 Hwin. rewrite rolling_window_full, Hwin by exact H6.
    rewrite observations_Fin.
    assert (Hlen : List.length vs = 7%nat).
    { rewrite <- (length_map Fin vs), <- Hwin, length_firstn, length_skipn.
      lia. }
    rewrite Hlen. reflexivity.
  - intros Hno.
    assert (Hlt : (List.length (observations (rolling_window 7 i xs)) < 7)%nat).
    { destruct (Nat.lt_ge_cases i 6) as [Hs|H6].
      - pose proof (rolling_window_short i xs Hs).
        pose proof (observations_length (rolling_window 7 i xs)). lia.
      - destruct Hno as [Hs|Hno]; [lia|].
        rewrite rolling_window_full by exact H6.
        pose proof (observations_length (firstn 7 (skipn (i - 6) xs))) as Hle.
        assert (Hw : List.length (firstn 7 (skipn (i - 6) xs)) = 7%nat).
        { rewrite length_firstn, length_skipn. lia. }
        destruct (Nat.eq_dec
                    (List.length (observations (firstn 7 (skipn (i - 6) xs))))
                    7) as [E|E]; [|lia].
        exfalso. apply Hno. eexists.
        apply observations_full. congruence. }
    apply Nat.leb_gt in Hlt. now rewrite Hlt.
Qed.

Lemma lookup_set_column_other (n m : string) (v : list float)
    (cols : list (string * list float)) :
  String.eqb m n = false ->
  lookup_column n (set_column m v cols) = lookup_column n cols.
Proof.
  intros Hne. induction cols as [|[k w] cols IH]; simpl.
  - now rewrite Hne.
  - destruct (String.eqb k m) eqn:E; simpl.
    + apply String.eqb_eq in E. subst k. now rewrite Hne.
    + destruct (String.eqb k n); [reflexivity | exact IH].
Qed.

Lemma moving_averages_run (g : Globals) :
  (7 < List.length (rows (filtered_df g)))%nat ->
  exists g',
    moving_averages true g = Ok g' /\
    rows (filtered_df g') = rows (filtered_df g) /\
    assigned_column "new_cases_ma" (filtered_df g')
    = Some (rolling_mean 7 (column new_cases (rows (filtered_df g)))) /\
    assigned_column "new_deaths_ma" (filtered_df g')
    = Some (rolling_mean 7 (column new_deaths (rows (filtered_df g)))).
Proof.
  intros Hlen. unfold moving_averages, assign_moving_averages.
  apply Nat.ltb_lt in Hlen. rewrite Hlen. simpl.
  eexists. split; [reflexivity|]. split; [reflexivity|].
  unfold assigned_column; simpl. split.
  - rewrite lookup_set_column_other by reflexivity.
    apply lookup_set_column.
  - apply lookup_set_column.
Qed.

(** When the option is off or the series has at most 7 rows, no moving
    average is computed. *)
Lemma moving_averages_skipped (show_moving_avg : bool) (g : Globals) :
  show_moving_avg = false \/ (List.length (rows (filtered_df g)) <= 7)%nat ->
  moving_averages show_moving_avg g = Ok g.
Proof.
  intros [->|Hlen]; unfold moving_averages; [reflexivity|].
  apply Nat.ltb_ge in Hlen. rewrite Hlen, andb_false_r. reflexivity.
Qed.

(** C3, as amended.  When moving averages are enabled and the filtered
    series has more than 7 records, the 7-day average of new_cases at the
    0-based index i is defined exactly when i + 1 >= 7 and the 7 values
    at i - 6 .. i are all present, and is then their arithmetic mean; for
    i + 1 < 7, or when a value of the window is absent, it is undefined. *)
Theorem moving_average_value (g : Globals) (i : nat) :
  (7 < List.length (rows (filtered_df g)))%nat ->
  (i < List.length (rows (filtered_df g)))%nat ->
  let window :=
    firstn 7 (skipn (i - 6) (column new_cases (rows (filtered_df g)))) in
  exists g' col x,
    moving_averages true g = Ok g' /\
    assigned_column "new_cases_ma" (filtered_df g') = Some col /\
    nth_error col i = Some x /\
    (forall vs, (6 <= i)%nat -> window = map Fin vs ->
                x = Fin (Qc_sum vs / Qc_of_nat 7)%Qc) /\
    ((i < 6)%nat \/ ~ (exists vs, window = map Fin vs) -> x = NaN).
Proof.
  intros Hlen Hi window.
  destruct (moving_averages_run g Hlen) as (g' & Hrun & _ & Hcol & _).
  destruct (rolling_mean_7 (column new_cases (rows (filtered_df g))) i)
    as (x & Hx & Hdef & Hundef).
  { unfold column. now rewrite length_map. }
  exists g', (rolling_mean 7 (column new_cases (rows (filtered_df g)))), x.
  repeat (split; [assumption|]). exact Hundef.
Qed.

Lemma moving_average_value_witness :
  exists g' col,
    moving_averages true (series_of eight_days) = Ok g' /\
    assigned_column "new_cases_ma" (filtered_df g') = Some col /\
    nth_error col 6
    = Some (Fin (Qc_sum (map (fun n => Q2Qc (inject_Z n))
                             [7; 14; 21; 28; 35; 42; 49])
                 / Qc_of_nat 7)%Qc) /\
    nth_error col 5 = Some NaN.
Proof.
  destruct (moving_average_value (series_of eight_days) 6)
    as (g' & col & x & Hrun & Hcol & Hx & Hdef & _);
    [simpl; lia | simpl; lia |].
  destruct (moving_average_value (series_of eight_days) 5)
    as (g2 & col2 & y & Hrun2 & Hcol2 & Hy & _ & Hundef);
    [simpl; lia | simpl; lia |].
  rewrite Hrun in Hrun2. injection Hrun2 as <-.
  rewrite Hcol in Hcol2. injection Hcol2 as <-.
  exists g', col. split; [exact Hrun|]. split; [exact Hcol|]. split.
  - rewrite Hx. f_equal.
    apply (Hdef (map (fun n => Q2Qc (inject_Z n))
                     [7; 14; 21; 28; 35; 42; 49])); [lia | reflexivity].
  - rewrite Hy. f_equal. apply Hundef. left. lia.
Defined.

(** C3 as stated fails: on a series of exactly 7 records, all with
    new_cases present, and with moving averages enabled, the script
    computes no average, so none is defined at index 6. *)
Lemma moving_average_missing_at_seven :
  ~ (forall g i vs,
        (6 <= i)%nat ->
        firstn 7 (skipn (i - 6) (column new_cases (rows (filtered_df g))))
        = map Fin vs ->
        List.length vs = 7%nat ->
        exists g' col,
          moving_averages true g = Ok g' /\
          assigned_column "new_cases_ma" (filtered_df g') = Some col /\
          nth_error col i = Some (Fin (Qc_sum vs / Qc_of_nat 7)%Qc)).
Proof.
  intros Hclaim.
  destruct (Hclaim (series_of week) 6%nat
              (map (fun n => Q2Qc (inject_Z n)) [7; 14; 21; 28; 35; 42; 49])
              (le_n 6) eq_refl eq_refl)
    as (g' & col & Hrun & Hcol & _).
  unfold moving_averages in Hrun. simpl in Hrun.
  injection Hrun as <-. discriminate Hcol.
Qed.

(** ** Whole runs of the script *)

Lemma iloc_last_nonempty (l : list Row) :
  l <> [] -> exists r, iloc_last l = Ok r.
Proof.
  induction l as [|x l IH]; [congruence|]. intros _.
  destruct l as [|y l]; [now exists x|].
  destruct IH as [r Hr]; [discriminate|]. exists r. exact Hr.
Qed.

Lemma compute_vaccination_rate_ok (r : Row) :
  exists x, compute_vaccination_rate r = Ok x.
Proof.
  unfold compute_vaccination_rate.
  destruct (both_present r "people_vaccinated" "population");
    simpl; eexists; reflexivity.
Qed.

Lemma key_metrics_nonempty (g : Globals) :
  rows (filtered_df g) <> [] ->
  exists r rate,
    iloc_last (rows (filtered_df g)) = Ok r /\
    compute_vaccination_rate r = Ok rate /\
    key_metrics g
    = Ok (mkGlobals (filtered_df g) (Some r)
            (Some (of_cell (total_cases r)))
            (Some (of_cell (total_deaths r)))
            (Some (of_cell (new_cases r)))
            (Some rate)
            (filtered_df_copy g) (vaccinated g) (unvaccinated g)
            (vaccination_percentage g) (latest g)).
Proof.
  intros Hne.
  destruct (iloc_last_nonempty _ Hne) as [r Hr].
  destruct (compute_vaccination_rate_ok r) as [rate Hrate].
  exists r, rate. split; [exact Hr|]. split; [exact Hrate|].
  unfold key_metrics.
  destruct (rows (filtered_df g)) as [|x l] eqn:E; [congruence|].
  rewrite Hr; simpl. rewrite Hrate; simpl. reflexivity.
Qed.

Lemma vaccination_progress_bound (g : Globals) (r : Row) (rate : float) :
  latest_data g = Some r -> vaccination_rate g = Some rate ->
  exists g',
    vaccination_progress g = Ok g' /\ filtered_df g' = filtered_df g /\
    latest_data g' = Some r /\ var_total_cases g' = var_total_cases g /\
    vaccination_percentage g' = Some rate.
Proof.
  intros Hr Hrate. unfold vaccination_progress. rewrite Hr, Hrate; simpl.
  destruct (both_present r "people_vaccinated" "population"); simpl;
    eexists; repeat split; reflexivity.
Qed.

Lemma vaccination_progress_unbound (g : Globals) :
  latest_data g = None ->
  vaccination_progress g = Raise (NameError "latest_data").
Proof. intros E. unfold vaccination_progress. now rewrite E. Qed.

Lemma country_profile_runs (g : Globals) :
  exists g',
    country_profile g = Ok g' /\ filtered_df g' = filtered_df g /\
    latest_data g' = latest_data g /\
    var_total_cases g' = var_total_cases g.
Proof.
  unfold country_profile.
  destruct (rows (filtered_df g)) as [|x l]; [now exists g|].
  destruct (0 <? List.length (filter has_profile (x :: l)))%nat eqn:E.
  - destruct (iloc_last_nonempty (filter has_profile (x :: l))) as [r Hr].
    { intros Hnil. rewrite Hnil in E. discriminate E. }
    rewrite Hr; simpl. eexists; repeat split; reflexivity.
  - simpl. eexists; repeat split; reflexivity.
Qed.

Section Runs.
Context `{SortValues}.

(** On an empty filtered series the run stops at line 286 with a
    [NameError]. *)
Lemma dashboard_empty (df : list Row) (country : string)
    (date_range : list Z) (show_trends show_moving_avg : bool) :
  filter_data df country date_range = [] ->
  dashboard df country date_range show_trends show_moving_avg
  = Raise (NameError "latest_data").
Proof.
  intros E. unfold dashboard.
  rewrite key_metrics_empty by (unfold filter_stage; simpl; exact E).
  simpl.
  rewrite moving_averages_skipped
    by (right; unfold filter_stage; simpl; rewrite E; simpl; lia).
  reflexivity.
Qed.

(** On a non-empty filtered series the run completes; the snapshot is
    the last row, the total-cases card holds that row's cell as it is
    stored, and [filtered_df] ends as the moving averages left it. *)
Lemma dashboard_nonempty (df : list Row) (country : string)
    (date_range : list Z) (show_trends show_moving_avg : bool) :
  filter_data df country date_range <> [] ->
  exists g r,
    dashboard df country date_range show_trends show_moving_avg = Ok g /\
    iloc_last (filter_data df country date_range) = Ok r /\
    latest_data g = Some r /\
    var_total_cases g = Some (of_cell (total_cases r)) /\
    filtered_df g
    = if show_moving_avg
         && (7 <? List.length (filter_data df country date_range))%nat
      then assign_moving_averages
             (frame_of (filter_data df country date_range))
      else frame_of (filter_data df country date_range).
Proof.
  intros Hne. unfold dashboard.
  destruct (key_metrics_nonempty (filter_stage df country date_range))
    as (r & rate & Hr & Hrate & Hkm); [exact Hne|].
  rewrite Hkm; simpl. unfold moving_averages; simpl.
  set (enabled := show_moving_avg
               && (7 <? List.length (filter_data df country date_range))%nat).
  destruct enabled; simpl.
  - match goal with
    | |- context [vaccination_progress ?g0] =>
        destruct (vaccination_progress_bound g0 r rate eq_refl eq_refl)
          as (g4 & Hvp & Hf4 & Hl4 & Hc4 & _)
    end.
    rewrite Hvp; simpl.
    destruct (country_profile_runs g4) as (g5 & Hcp & Hf5 & Hl5 & Hc5).
    exists g5, r. rewrite Hcp, Hf5, Hl5, Hc5, Hf4, Hl4, Hc4.
    repeat split; try reflexivity. exact Hr.
  - match goal with
    | |- context [vaccination_progress ?g0] =>
        destruct (vaccination_progress_bound g0 r rate eq_refl eq_refl)
          as (g4 & Hvp & Hf4 & Hl4 & Hc4 & _)
    end.
    rewrite Hvp; simpl.
    destruct (country_profile_runs g4) as (g5 & Hcp & Hf5 & Hl5 & Hc5).
    exists g5, r. rewrite Hcp, Hf5, Hl5, Hc5, Hf4, Hl4, Hc4.
    repeat split; try reflexivity. exact Hr.
Qed.

End Runs.

Section Selections.
Context `{SortValues}.

Lemma sort_values_nil : sort_values [] = [].
Proof. apply Permutation_nil, sort_values_perm. Qed.

Lemma sort_values_one (r : Row) : sort_values [r] = [r].
Proof. apply Permutation_length_1_inv, sort_values_perm. Qed.

Lemma filter_data_length_no_range (df : list Row) (country : string) :
  List.length (filter_data df country [])
  = List.length (filter (location_is country) df).
Proof. symmetry. apply Permutation_length, (filter_data_perm df country []). Qed.

(** The first half of C2: an entity that no row carries gives the empty
    series, whatever the date range. *)
Lemma absent_entity_empty (df : list Row) (country : string)
    (date_range : list Z) :
  (forall r, In r df -> location r <> Some country) ->
  filter_data df country date_range = [].
Proof.
  intros Habsent.
  assert (E : filter (location_is country) df = []).
  { induction df as [|x df IH]; simpl; [reflexivity|].
    unfold location_is at 1.
    destruct (location x) as [s|] eqn:Hs.
    - destruct (String.eqb_spec s country) as [->|_].
      + elim (Habsent x (or_introl eq_refl)). exact Hs.
      + apply IH. intros r Hr. apply Habsent. now right.
    - apply IH. intros r Hr. apply Habsent. now right. }
  unfold filter_data. rewrite E, sort_values_nil.
  destruct date_range as [|d0 [|d1 [|d2 rest]]]; reflexivity.
Qed.

End Selections.

(** C2, on the code.  France has no row in January 2021: the filtered
    series is empty, as claimed, and the run then raises [NameError] at
    the vaccination pie, where [latest_data] is read without the test of
    emptiness the metric cards and the profile cards make. *)
Theorem empty_selection_raises `{SortValues} :
  filter_data two_countries "France" [20210101; 20210131] = [] /\
  dashboard two_countries "France" [20210101; 20210131] true false
  = Raise (NameError "latest_data").
Proof.
  assert (E : filter_data two_countries "France" [20210101; 20210131] = []).
  { unfold filter_data.
    change (filter (location_is "France") two_countries)
      with [sample "France" 20210301 (qc 10) (qc 1)].
    rewrite sort_values_one. reflexivity. }
  split; [exact E | now apply dashboard_empty].
Qed.

(** C7, on the code.  When the range has its start after its end, the
    filtered series is empty, as claimed; [latest_data] is then never
    assigned, and the run raises [NameError] at the vaccination pie
    instead of ending without an error. *)
Theorem inverted_range_run_raises `{SortValues} (df : list Row)
    (country : string) (start stop : Z)
    (show_trends show_moving_avg : bool) :
  stop < start ->
  filter_data df country [start; stop] = [] /\
  latest_data (filter_stage df country [start; stop]) = None /\
  key_metrics (filter_stage df country [start; stop])
  = Ok (filter_stage df country [start; stop]) /\
  dashboard df country [start; stop] show_trends show_moving_avg
  = Raise (NameError "latest_data").
Proof.
  intros Hlt.
  assert (E : filter_data df country [start; stop] = []).
  { unfold filter_data. apply filter_all_false.
    intros r. now apply in_range_inverted. }
  split; [exact E|]. split; [reflexivity|]. split.
  - apply key_metrics_empty. unfold filter_stage; simpl. exact E.
  - now apply dashboard_empty.
Qed.

Lemma inverted_range_run_raises_witness :
  20210101 < 20210201 /\
  @dashboard insertion_sort_values two_countries "France"
    [20210201; 20210101] true false
  = Raise (NameError "latest_data").
Proof.
  split; [lia|].
  destruct (@inverted_range_run_raises insertion_sort_values two_countries
              "France"%string 20210201 20210101 true false)
    as (_ & _ & _ & Hrun).
  - lia.
  - exact Hrun.
Defined.

(** C8, on the code.  When the last row has no total_cases, the run
    completes and the snapshot is that row, as claimed, but the
    total-cases card receives NaN: [get] falls back on 0 only for a
    missing key. *)
Theorem missing_total_cases_card `{SortValues} :
  exists g,
    dashboard [missing_total_cases] "US" [] true false = Ok g /\
    latest_data g = Some missing_total_cases /\
    var_total_cases g = Some NaN.
Proof.
  assert (E : filter_data [missing_total_cases] "US" []
              = [missing_total_cases]).
  { unfold filter_data.
    change (filter (location_is "US") [missing_total_cases])
      with [missing_total_cases].
    apply sort_values_one. }
  destruct (dashboard_nonempty [missing_total_cases] "US"%string [] true false)
    as (g & r & Hrun & Hr & Hl & Hc & _).
  { rewrite E. discriminate. }
  rewrite E in Hr. injection Hr as <-.
  exists g. repeat split; assumption.
Qed.

(** C9, on the code.  With moving averages enabled on a series of 8
    records, the run leaves [filtered_df] with two more columns than the
    filter gave it: the averages are assigned to the frame itself, where
    the case-fatality ratio is assigned to a copy. *)
Theorem moving_averages_assigned_in_place `{SortValues} :
  exists g,
    dashboard eight_days "US" [] true true = Ok g /\
    column_names (filtered_df g) = ["new_cases_ma"; "new_deaths_ma"]%string /\
    filtered_df g <> frame_of (filter_data eight_days "US" []).
Proof.
  assert (Hlen : List.length (filter_data eight_days "US" []) = 8%nat)
    by (rewrite filter_data_length_no_range; reflexivity).
  destruct (dashboard_nonempty eight_days "US"%string [] true true)
    as (g & r & Hrun & _ & _ & _ & Hf).
  { intros E. rewrite E in Hlen. discriminate Hlen. }
  rewrite Hlen in Hf. simpl in Hf.
  exists g. split; [exact Hrun|]. rewrite Hf. split; [reflexivity|].
  intros E. apply (f_equal assigned) in E. discriminate E.
Qed.

(** The case-fatality stage, for contrast, leaves [filtered_df] as it
    found it. *)
Lemma case_fatality_keeps_filtered_df (g g' : Globals) :
  case_fatality g = Ok g' -> filtered_df g' = filtered_df g.
Proof. unfold case_fatality. intros E. injection E as <-. reflexivity. Qed.

(** * Further properties of the script *)

(** ** The state a completed run ends in *)

Lemma iloc_last_inv (l : list Row) (r : Row) :
  iloc_last l = Ok r -> exists l', l = l' ++ [r].
Proof.
  induction l as [|x l IH]; [discriminate|].
  destruct l as [|y l]; simpl.
  - intros E. injection E as ->. now exists [].
  - intros E. destruct (IH E) as [l' Hl']. exists (x :: l').
    simpl. now rewrite <- Hl'.
Qed.

Lemma iloc_last_empty (l : list Row) (e : exn) :
  iloc_last l = Raise e -> l = [].
Proof.
  intros E. destruct l as [|x l]; [reflexivity|].
  destruct (iloc_last_nonempty (x :: l)) as [r Hr]; [discriminate|].
  congruence.
Qed.

Lemma country_profile_latest (g : Globals) :
  rows (filtered_df g) <> [] ->
  country_profile g
  = Ok (mkGlobals (filtered_df g) (latest_data g) (var_total_cases g)
          (var_total_deaths g) (var_new_cases g) (vaccination_rate g)
          (filtered_df_copy g) (vaccinated g) (unvaccinated g)
          (vaccination_percentage g)
          (Some (profile_row (rows (filtered_df g))))).
Proof.
  intros Hne. unfold country_profile, profile_row.
  destruct (rows (filtered_df g)) as [|x l] eqn:E; [congruence|].
  destruct (iloc_last (filter has_profile (x :: l))) as [r|e] eqn:Hr.
  - destruct (iloc_last_inv _ _ Hr) as [l' Hl']. rewrite Hl'.
    assert (Hp : (0 <? List.length (l' ++ [r]))%nat = true)
      by (apply Nat.ltb_lt; rewrite length_app; simpl; lia).
    rewrite Hp. reflexivity.
  - rewrite (iloc_last_empty _ _ Hr). reflexivity.
Qed.

Section Completed.
Context `{SortValues}.
Variables (df : list Row) (country : string) (date_range : list Z).
Variables (show_trends show_moving_avg : bool).

Let series := filter_data df country date_range.

Let frame : DataFrame :=
  if show_moving_avg && (7 <? List.length series)%nat
  then assign_moving_averages (frame_of series)
  else frame_of series.

(** The globals at the end of a run over a non-empty series, field by
    field. *)
Lemma dashboard_state :
  series <> [] ->
  exists r rate,
    iloc_last series = Ok r /\
    compute_vaccination_rate r = Ok rate /\
    dashboard df country date_range show_trends show_moving_avg
    = Ok (mkGlobals frame (Some r)
            (Some (of_cell (total_cases r)))
            (Some (of_cell (total_deaths r)))
            (Some (of_cell (new_cases r)))
            (Some rate)
            (Some (setitem (copy frame) "cfr" (cfr_column series)))
            (if both_present r "people_vaccinated" "population"
             then Some (of_cell (people_vaccinated r)) else None)
            (if both_present r "people_vaccinated" "population"
             then Some (fsub (of_cell (population r))
                             (of_cell (people_vaccinated r)))
             else None)
            (Some rate)
            (Some (profile_row series))).
Proof.
  intros Hne.
  destruct (key_metrics_nonempty (filter_stage df country date_range))
    as (r & rate & Hr & Hrate & Hkm); [exact Hne|].
  exists r, rate. split; [exact Hr|]. split; [exact Hrate|].
  unfold dashboard. rewrite Hkm; simpl.
  unfold moving_averages; simpl. fold series.
  assert (Hrows : rows frame = series).
  { unfold frame.
    destruct (show_moving_avg && (7 <? List.length series)%nat);
      reflexivity. }
  fold frame.
  replace (if show_moving_avg && (7 <? List.length series)%nat
           then Ok (with_filtered_df
                      (mkGlobals (frame_of series) (Some r)
                         (Some (of_cell (total_cases r)))
                         (Some (of_cell (total_deaths r)))
                         (Some (of_cell (new_cases r))) (Some rate)
                         None None None None None)
                      (assign_moving_averages (frame_of series)))
           else Ok (mkGlobals (frame_of series) (Some r)
                      (Some (of_cell (total_cases r)))
                      (Some (of_cell (total_deaths r)))
                      (Some (of_cell (new_cases r))) (Some rate)
                      None None None None None))
    with (Ok (mkGlobals frame (Some r)
                (Some (of_cell (total_cases r)))
                (Some (of_cell (total_deaths r)))
                (Some (of_cell (new_cases r))) (Some rate)
                None None None None None))
    by (unfold frame;
        destruct (show_moving_avg && (7 <? List.length series)%nat);
        reflexivity).
  simpl. unfold case_fatality; simpl. rewrite Hrows.
  unfold vaccination_progress; simpl.
  destruct (both_present r "people_vaccinated" "population"); simpl;
    rewrite country_profile_latest by (simpl; rewrite Hrows; exact Hne);
    simpl; rewrite Hrows; reflexivity.
Qed.

End Completed.

(** ** Runs: when they complete and what they show *)

(** X1.  A run completes exactly when the filtered series is not empty,
    and the only exception a run can raise is the [NameError] on
    [latest_data]. *)
Theorem run_completes_iff_nonempty `{SortValues} (df : list Row)
    (country : string) (date_range : list Z)
    (show_trends show_moving_avg : bool) :
  ((exists g, dashboard df country date_range show_trends show_moving_avg
              = Ok g)
   <-> filter_data df country date_range <> []) /\
  (forall e, dashboard df country date_range show_trends show_moving_avg
             = Raise e -> e = NameError "latest_data").
Proof.
  destruct (filter_data df country date_range) as [|x l] eqn:E.
  - pose proof (dashboard_empty df country date_range show_trends
                  show_moving_avg E) as Hraise.
    split; [split|].
    + intros [g Hg]. congruence.
    + congruence.
    + intros e He. congruence.
  - destruct (dashboard_state df country date_range show_trends
                show_moving_avg) as (r & rate & _ & _ & Hrun).
    { rewrite E. discriminate. }
    split; [split|].
    + discriminate.
    + intros _. eexists. exact Hrun.
    + intros e He. congruence.
Qed.

Lemma run_completes_iff_nonempty_witness :
  exists g, @dashboard insertion_sort_values two_countries "US"
              [20210101; 20210131] true false = Ok g.
Proof.
  apply (proj2 (proj1 (@run_completes_iff_nonempty insertion_sort_values
                         two_countries "US"%string [20210101; 20210131]
                         true false))).
  vm_compute. discriminate.
Defined.

Lemma sorted_last_is_greatest (l : list Row) (r : Row) :
  StronglySorted by_date (l ++ [r]) ->
  forall r', In r' (l ++ [r]) -> date_le (date r') (date r).
Proof.
  intros Hs r' Hin. apply in_app_or in Hin.
  destruct Hin as [Hin|[<-|[]]]; [|apply date_le_refl].
  destruct (In_nth_error _ _ Hin) as [i Hi].
  apply (StronglySorted_nth by_date _ Hs i (List.length l) r' r).
  - apply nth_error_Some. congruence.
  - rewrite nth_error_app1; [exact Hi|]. apply nth_error_Some. congruence.
  - rewrite nth_error_app2, Nat.sub_diag by lia. reflexivity.
Qed.

(** X2.  On a non-empty filtered series the snapshot [latest_data] is
    the last row of the series, and no row of the series has a later
    date (a missing date counts as latest). *)
Theorem snapshot_is_latest `{SortValues} (df : list Row) (country : string)
    (date_range : list Z) (show_trends show_moving_avg : bool) :
  filter_data df country date_range <> [] ->
  exists g r l,
    dashboard df country date_range show_trends show_moving_avg = Ok g /\
    latest_data g = Some r /\
    filter_data df country date_range = l ++ [r] /\
    forall r', In r' (filter_data df country date_range) ->
               date_le (date r') (date r).
Proof.
  intros Hne.
  destruct (dashboard_state df country date_range show_trends
              show_moving_avg Hne) as (r & rate & Hr & _ & Hrun).
  destruct (iloc_last_inv _ _ Hr) as [l Hl].
  eexists. exists r, l. split; [exact Hrun|].
  split; [reflexivity|]. split; [exact Hl|].
  rewrite Hl. apply sorted_last_is_greatest. rewrite <- Hl.
  apply filter_data_sorted.
Qed.

Lemma snapshot_is_latest_witness :
  exists g r l,
    @dashboard insertion_sort_values eight_days "US" [] true false = Ok g /\
    latest_data g = Some r /\
    @filter_data insertion_sort_values eight_days "US" [] = l ++ [r] /\
    forall r', In r' (@filter_data insertion_sort_values eight_days "US" [])
               -> date_le (date r') (date r).
Proof.
  apply (@snapshot_is_latest insertion_sort_values eight_days "US"%string
           [] true false).
  vm_compute. discriminate.
Defined.

(** X3.  On a non-empty filtered series the three count cards receive
    the cells of the snapshot row as they are stored: a missing cell
    reaches its card as NaN, and 0 is shown only for a stored 0. *)
Theorem cards_show_stored_cells `{SortValues} (df : list Row)
    (country : string) (date_range : list Z)
    (show_trends show_moving_avg : bool) :
  filter_data df country date_range <> [] ->
  exists g r,
    dashboard df country date_range show_trends show_moving_avg = Ok g /\
    latest_data g = Some r /\
    var_total_cases g = Some (of_cell (total_cases r)) /\
    var_total_deaths g = Some (of_cell (total_deaths r)) /\
    var_new_cases g = Some (of_cell (new_cases r)) /\
    (var_total_cases g = Some NaN <-> total_cases r = None) /\
    (var_total_deaths g = Some NaN <-> total_deaths r = None) /\
    (var_new_cases g = Some NaN <-> new_cases r = None).
Proof.
  intros Hne.
  destruct (dashboard_state df country date_range show_trends
              show_moving_avg Hne) as (r & rate & _ & _ & Hrun).
  eexists. exists r. split; [exact Hrun|]. simpl.
  repeat (split; [reflexivity|]).
  repeat split;
    try (intros E; injection E as E);
    try (intros ->; reflexivity).
  - destruct (total_cases r); [discriminate | reflexivity].
  - destruct (total_deaths r); [discriminate | reflexivity].
  - destruct (new_cases r); [discriminate | reflexivity].
Qed.

Lemma cards_show_stored_cells_witness :
  exists g r,
    @dashboard insertion_sort_values two_countries "France" [] true false
    = Ok g /\
    latest_data g = Some r /\
    var_total_cases g = Some (of_cell (total_cases r)).
Proof.
  destruct (@cards_show_stored_cells insertion_sort_values two_countries
              "France"%string [] true false)
    as (g & r & Hrun & Hl & Hc & _).
  - vm_compute. discriminate.
  - exists g, r. repeat split; assumption.
Defined.

(** X4.  On a non-empty filtered series the gauge receives the very
    number the vaccination card shows, the rate computed from the
    snapshot row. *)
Theorem gauge_shows_card_rate `{SortValues} (df : list Row)
    (country : string) (date_range : list Z)
    (show_trends show_moving_avg : bool) :
  filter_data df country date_range <> [] ->
  exists g r rate,
    dashboard df country date_range show_trends show_moving_avg = Ok g /\
    latest_data g = Some r /\
    compute_vaccination_rate r = Ok rate /\
    vaccination_rate g = Some rate /\
    vaccination_percentage g = Some rate.
Proof.
  intros Hne.
  destruct (dashboard_state df country date_range show_trends
              show_moving_avg Hne) as (r & rate & _ & Hrate & Hrun).
  eexists. exists r, rate. split; [exact Hrun|].
  repeat split; [exact Hrate].
Qed.

Lemma gauge_shows_card_rate_witness :
  exists g rate,
    @dashboard insertion_sort_values
      [with_vaccination (qc 500) (qc 1000)] "US" [] true false = Ok g /\
    vaccination_rate g = Some rate /\
    vaccination_percentage g = Some rate.
Proof.
  destruct (@gauge_shows_card_rate insertion_sort_values
              [with_vaccination (qc 500) (qc 1000)] "US"%string [] true false)
    as (g & r & rate & Hrun & _ & _ & Hcard & Hgauge).
  - vm_compute. discriminate.
  - exists g, rate. repeat split; assumption.
Defined.

(** X5.  On a non-empty filtered series the pie is fed exactly when
    people_vaccinated and population are both present in the snapshot
    row: its two slices are then bound, the first being the stored
    people_vaccinated, and are left unbound when either value is
    missing. *)
Theorem pie_slices `{SortValues} (df : list Row) (country : string)
    (date_range : list Z) (show_trends show_moving_avg : bool) :
  filter_data df country date_range <> [] ->
  exists g r,
    dashboard df country date_range show_trends show_moving_avg = Ok g /\
    latest_data g = Some r /\
    (forall v p, people_vaccinated r = Some v -> population r = Some p ->
       vaccinated g = Some (Fin v) /\ unvaccinated g <> None) /\
    (people_vaccinated r = None \/ population r = None ->
     vaccinated g = None /\ unvaccinated g = None).
Proof.
  intros Hne.
  destruct (dashboard_state df country date_range show_trends
              show_moving_avg Hne) as (r & rate & _ & _ & Hrun).
  eexists. exists r. split; [exact Hrun|]. simpl.
  split; [reflexivity|]. rewrite both_present_vaccination. split.
  - intros v p Hv Hp. rewrite Hv, Hp. simpl.
    split; [reflexivity | discriminate].
  - intros [E|E]; rewrite E; [|destruct (people_vaccinated r)];
      split; reflexivity.
Qed.

Lemma pie_slices_witness :
  exists g r,
    @dashboard insertion_sort_values
      [with_vaccination (qc 500) (qc 1000)] "US" [] true false = Ok g /\
    latest_data g = Some r /\
    (forall v p, people_vaccinated r = Some v -> population r = Some p ->
       vaccinated g = Some (Fin v) /\ unvaccinated g <> None).
Proof.
  destruct (@pie_slices insertion_sort_values
              [with_vaccination (qc 500) (qc 1000)] "US"%string [] true false)
    as (g & r & Hrun & Hl & Hpie & _).
  - vm_compute. discriminate.
  - exists g, r. split; [exact Hrun|]. split; [exact Hl|]. exact Hpie.
Defined.

(** ** Frames: what a run leaves in [filtered_df] and in its copy *)

Lemma moving_average_frame_rows (b : bool) (l : list Row) :
  rows (if b then assign_moving_averages (frame_of l) else frame_of l) = l.
Proof. destruct b; reflexivity. Qed.

Lemma moving_average_frame_no_cfr (b : bool) (l : list Row) :
  assigned_column "cfr"
    (if b then assign_moving_averages (frame_of l) else frame_of l) = None.
Proof. destruct b; reflexivity. Qed.

(** X6.  On a non-empty filtered series a run never changes the rows of
    [filtered_df] and never gives it a cfr column; with moving averages
    disabled, or with at most 7 rows, it leaves [filtered_df] exactly as
    the filter produced it. *)
Theorem filtered_df_after_run `{SortValues} (df : list Row)
    (country : string) (date_range : list Z)
    (show_trends show_moving_avg : bool) :
  filter_data df country date_range <> [] ->
  exists g,
    dashboard df country date_range show_trends show_moving_avg = Ok g /\
    rows (filtered_df g) = filter_data df country date_range /\
    assigned_column "cfr" (filtered_df g) = None /\
    (show_moving_avg = false \/
     (List.length (filter_data df country date_range) <= 7)%nat ->
     filtered_df g = frame_of (filter_data df country date_range)).
Proof.
  intros Hne.
  destruct (dashboard_state df country date_range show_trends
              show_moving_avg Hne) as (r & rate & _ & _ & Hrun).
  eexists. split; [exact Hrun|]. simpl.
  split; [apply moving_average_frame_rows|].
  split; [apply moving_average_frame_no_cfr|].
  intros [->|Hlen]; [reflexivity|].
  apply Nat.ltb_ge in Hlen. rewrite Hlen, andb_false_r. reflexivity.
Qed.

Lemma filtered_df_after_run_witness :
  exists g,
    @dashboard insertion_sort_values week "US" [] true true = Ok g /\
    filtered_df g = frame_of (@filter_data insertion_sort_values week "US" []).
Proof.
  destruct (@filtered_df_after_run insertion_sort_values week "US"%string
              [] true true) as (g & Hrun & _ & _ & Hsame).
  - vm_compute. discriminate.
  - exists g. split; [exact Hrun|]. apply Hsame. right.
    vm_compute. apply le_n.
Defined.

(** X7.  On a non-empty filtered series the frame the case-fatality
    chart reads is a copy with the rows of [filtered_df]; its cfr column
    is the ratio column, with one entry per row, and every other column
    reads in the copy as it reads in [filtered_df]. *)
Theorem case_fatality_copy `{SortValues} (df : list Row)
    (country : string) (date_range : list Z)
    (show_trends show_moving_avg : bool) :
  filter_data df country date_range <> [] ->
  exists g c col,
    dashboard df country date_range show_trends show_moving_avg = Ok g /\
    filtered_df_copy g = Some c /\
    rows c = rows (filtered_df g) /\
    assigned_column "cfr" c = Some col /\
    col = cfr_column (filter_data df country date_range) /\
    List.length col = List.length (rows c) /\
    forall other, String.eqb "cfr" other = false ->
      assigned_column other c = assigned_column other (filtered_df g).
Proof.
  intros Hne.
  destruct (dashboard_state df country date_range show_trends
              show_moving_avg Hne) as (r & rate & _ & _ & Hrun).
  eexists. eexists. eexists. split; [exact Hrun|]. simpl.
  split; [reflexivity|]. split; [reflexivity|].
  unfold assigned_column; simpl.
  split; [apply lookup_set_column|]. split; [reflexivity|]. split.
  - rewrite cfr_column_rows, length_map, moving_average_frame_rows.
    reflexivity.
  - intros other Hother. now apply lookup_set_column_other.
Qed.

Lemma case_fatality_copy_witness :
  exists g c col,
    @dashboard insertion_sort_values eight_days "US" [] true true = Ok g /\
    filtered_df_copy g = Some c /\
    assigned_column "cfr" c = Some col /\
    assigned_column "new_cases_ma" c
    = assigned_column "new_cases_ma" (filtered_df g).
Proof.
  destruct (@case_fatality_copy insertion_sort_values eight_days
              "US"%string [] true true)
    as (g & c & col & Hrun & Hc & _ & Hcol & _ & _ & Hother).
  - vm_compute. discriminate.
  - exists g, c, col. repeat (split; [assumption|]).
    apply Hother. reflexivity.
Defined.

(** ** Percentages *)

Lemma Qc_div_mult_cancel (a b : Qc) : b <> Q2Qc 0 -> (a / b * b)%Qc = a.
Proof.
  intros Hb. rewrite Qcmult_comm. now apply Qcmult_div_r.
Qed.

Lemma percent_range (a b : Qc) :
  (Q2Qc 0 <= a)%Qc -> (a <= b)%Qc -> (Q2Qc 0 < b)%Qc ->
  (Q2Qc 0 <= a / b * hundred)%Qc /\ (a / b * hundred <= hundred)%Qc.
Proof.
  intros Ha Hab Hb.
  assert (Hb0 : b <> Q2Qc 0)
    by (intros ->; exact (Qclt_not_eq _ _ Hb eq_refl)).
  assert (H100 : (Q2Qc 0 <= hundred)%Qc) by (vm_compute; discriminate).
  assert (Hlo : (Q2Qc 0 <= a / b)%Qc).
  { apply (Qcmult_lt_0_le_reg_r _ _ b Hb).
    rewrite Qc_div_mult_cancel by exact Hb0.
    change (Q2Qc 0) with 0%Qc. now rewrite Qcmult_0_l. }
  assert (Hhi : (a / b <= 1)%Qc).
  { apply (Qcmult_lt_0_le_reg_r _ _ b Hb).
    rewrite Qc_div_mult_cancel by exact Hb0.
    now rewrite Qcmult_1_l. }
  split.
  - replace (Q2Qc 0) with (Q2Qc 0 * hundred)%Qc
      by (change (Q2Qc 0) with 0%Qc; apply Qcmult_0_l).
    now apply Qcmult_le_compat_r.
  - replace hundred with (1 * hundred)%Qc at 2 by apply Qcmult_1_l.
    now apply Qcmult_le_compat_r.
Qed.

(** X8.  When people_vaccinated and population are present with
    0 <= people_vaccinated <= population and population > 0, the
    vaccination rate is a finite number between 0 and 100. *)
Theorem vaccination_rate_in_percent_range (r : Row) (v p : Qc) :
  people_vaccinated r = Some v -> population r = Some p ->
  (Q2Qc 0 <= v)%Qc -> (v <= p)%Qc -> (Q2Qc 0 < p)%Qc ->
  exists q, compute_vaccination_rate r = Ok (Fin q) /\
            (Q2Qc 0 <= q)%Qc /\ (q <= hundred)%Qc.
Proof.
  intros Hv Hp H0 Hle Hpos.
  exists (v / p * hundred)%Qc. split.
  - unfold compute_vaccination_rate. rewrite both_present_vaccination.
    rewrite Hv, Hp. unfold getitem; simpl. rewrite Hv, Hp; simpl.
    now rewrite (Qc_pos_not_zero p Hpos).
  - now apply percent_range.
Qed.

Lemma vaccination_rate_in_percent_range_witness :
  exists q,
    compute_vaccination_rate (with_vaccination (qc 500) (qc 1000))
    = Ok (Fin q) /\ (Q2Qc 0 <= q)%Qc /\ (q <= hundred)%Qc.
Proof.
  apply (vaccination_rate_in_percent_range
           (with_vaccination (qc 500) (qc 1000))
           (Q2Qc (inject_Z 500)) (Q2Qc (inject_Z 1000)) eq_refl eq_refl).
  - vm_compute. discriminate.
  - vm_compute. discriminate.
  - reflexivity.
Defined.

(** X9.  When population is 0 and people_vaccinated is present, the
    vaccination rate is computed without an exception and is not a
    finite number: NaN for 0 people vaccinated, an infinity otherwise. *)
Theorem vaccination_rate_zero_population_not_finite (r : Row) (v : Qc) :
  people_vaccinated r = Some v -> population r = Some (Q2Qc 0) ->
  exists x, compute_vaccination_rate r = Ok x /\ ~ defined x /\
            (x = NaN <-> v = Q2Qc 0).
Proof.
  intros Hv Hp.
  unfold compute_vaccination_rate. rewrite both_present_vaccination.
  rewrite Hv, Hp. unfold getitem; simpl. rewrite Hv, Hp; simpl.
  change (Qc_is_zero (Q2Qc 0)) with true. cbv iota.
  destruct (Qc_is_zero v) eqn:Ez.
  - exists NaN. split; [reflexivity|]. split.
    + intros [q Hq]. discriminate Hq.
    + split; [intros _; now apply Qc_is_zero_true | reflexivity].
  - apply Qc_is_zero_false in Ez.
    destruct (Qc_is_neg v); eexists; (split; [reflexivity|]); split;
      try (intros [q Hq]; discriminate Hq);
      (split; [discriminate | intros E; now elim Ez]).
Qed.

Lemma vaccination_rate_zero_population_not_finite_witness :
  exists x,
    compute_vaccination_rate (with_vaccination (qc 500) (qc 0)) = Ok x /\
    ~ defined x.
Proof.
  destruct (vaccination_rate_zero_population_not_finite
              (with_vaccination (qc 500) (qc 0)) (Q2Qc (inject_Z 500))
              eq_refl eq_refl) as (x & Hx & Hnd & _).
  exists x. split; assumption.
Defined.

(** X10.  For a record with total_deaths and total_cases present,
    0 <= total_deaths <= total_cases and total_cases > 0, the
    case-fatality ratio is a finite number between 0 and 100, and it is
    0 when total_deaths is 0. *)
Theorem case_fatality_in_percent_range (l : list Row) (i : nat) (r : Row)
    (d k : Qc) :
  nth_error l i = Some r ->
  total_deaths r = Some d -> total_cases r = Some k ->
  (Q2Qc 0 <= d)%Qc -> (d <= k)%Qc -> (Q2Qc 0 < k)%Qc ->
  exists q, nth_error (cfr_column l) i = Some (Fin q) /\
            (Q2Qc 0 <= q)%Qc /\ (q <= hundred)%Qc /\
            (d = Q2Qc 0 -> q = Q2Qc 0).
Proof.
  intros Hi Hd Hk H0 Hle Hpos.
  exists (d / k * hundred)%Qc. split.
  - rewrite cfr_column_rows. rewrite (map_nth_error _ _ _ Hi). f_equal.
    unfold cfr_of_row. rewrite Hd, Hk. unfold of_cell, replace_zero_na.
    rewrite (Qc_pos_not_zero k Hpos). unfold truediv.
    rewrite (Qc_pos_not_zero k Hpos). reflexivity.
  - destruct (percent_range d k H0 Hle Hpos) as [Hlo Hhi].
    repeat split; [exact Hlo | exact Hhi |].
    intros ->. change (Q2Qc 0) with 0%Qc. unfold Qcdiv.
    now rewrite !Qcmult_0_l.
Qed.

Lemma case_fatality_in_percent_range_witness :
  exists q,
    nth_error (cfr_column [sample "US" 20210102 (qc 150) (qc 3)]) 0
    = Some (Fin q) /\ (Q2Qc 0 <= q)%Qc /\ (q <= hundred)%Qc.
Proof.
  destruct (case_fatality_in_percent_range
              [sample "US" 20210102 (qc 150) (qc 3)] 0
              (sample "US" 20210102 (qc 150) (qc 3))
              (Q2Qc (inject_Z 3)) (Q2Qc (inject_Z 150))
              eq_refl eq_refl eq_refl)
    as (q & Hq & Hlo & Hhi & _).
  - vm_compute. discriminate.
  - vm_compute. discriminate.
  - reflexivity.
  - exists q. repeat split; assumption.
Defined.

(** ** The filter: which rows it keeps *)

Lemma location_is_true (country : string) (r : Row) :
  location_is country r = true <-> location r = Some country.
Proof.
  unfold location_is. destruct (location r) as [s|].
  - rewrite String.eqb_eq. split; congruence.
  - split; discriminate.
Qed.

Lemma in_range_true (d0 d1 : Z) (r : Row) :
  in_range d0 d1 r = true <-> exists d, date r = Some d /\ d0 <= d <= d1.
Proof.
  unfold in_range, date_ge, date_lt_eq. destruct (date r) as [x|].
  - rewrite andb_true_iff, !Z.leb_le. split.
    + intros [Hlo Hhi]. exists x. split; [reflexivity | lia].
    + intros (d & E & Hd). injection E as ->. lia.
  - split; [discriminate|]. intros (d & E & _). discriminate E.
Qed.

Section Members.
Context `{SortValues}.

Lemma filter_data_In (df : list Row) (country : string)
    (date_range : list Z) (r : Row) :
  In r (filter_data df country date_range)
  <-> In r (selected df country date_range).
Proof.
  split; apply Permutation_in;
    [apply Permutation_sym|]; apply filter_data_perm.
Qed.

Lemma filter_data_range_In (df : list Row) (country : string)
    (d0 d1 : Z) (r : Row) :
  In r (filter_data df country [d0; d1])
  <-> In r df /\ location r = Some country /\
      exists d, date r = Some d /\ d0 <= d <= d1.
Proof.
  rewrite filter_data_In. unfold selected.
  rewrite !filter_In, location_is_true, in_range_true. tauto.
Qed.

End Members.

(** X11.  With a two-bound date range the filtered series holds exactly
    the rows of the data set whose location is the selected country and
    whose date is present and lies between the bounds, both included. *)
Theorem range_filter_members `{SortValues} (df : list Row)
    (country : string) (d0 d1 : Z) (r : Row) :
  In r (filter_data df country [d0; d1])
  <-> In r df /\ location r = Some country /\
      exists d, date r = Some d /\ d0 <= d <= d1.
Proof.
  split.
  - intros Hin.
    apply (Permutation_in _ (Permutation_sym
                               (filter_data_perm df country [d0; d1])))
      in Hin.
    unfold selected in Hin. apply filter_In in Hin.
    destruct Hin as [Hin Hrange]. apply filter_In in Hin.
    destruct Hin as [Hin Hloc].
    split; [exact Hin|]. split; [now apply location_is_true|].
    now apply in_range_true.
  - intros (Hin & Hloc & Hrange).
    apply (Permutation_in _ (filter_data_perm df country [d0; d1])).
    unfold selected. apply filter_In. split; [|now apply in_range_true].
    apply filter_In. split; [exact Hin | now apply location_is_true].
Qed.

Lemma range_filter_members_witness :
  In (sample "US" 20210101 (qc 100) (qc 2))
     (@filter_data insertion_sort_values two_countries "US"
        [20210101; 20210131]).
Proof.
  apply (proj2 (@range_filter_members insertion_sort_values two_countries
                  "US"%string 20210101 20210131
                  (sample "US" 20210101 (qc 100) (qc 2)))).
  split; [left; reflexivity|]. split; [reflexivity|].
  exists 20210101. split; [reflexivity | lia].
Defined.

(** X12.  A row of the selected country whose date is missing is in the
    filtered series exactly when the date range does not have two
    bounds: a two-bound range drops it, any other range keeps it. *)
Theorem undated_row_kept_iff_no_range `{SortValues} (df : list Row)
    (country : string) (date_range : list Z) (r : Row) :
  In r df -> location r = Some country -> date r = None ->
  (In r (filter_data df country date_range)
   <-> List.length date_range <> 2%nat).
Proof.
  intros Hin Hloc Hdate.
  assert (Hsel : In r (filter (location_is country) df))
    by (apply filter_In; split; [exact Hin | now apply location_is_true]).
  rewrite filter_data_In. unfold selected.
  destruct date_range as [|d0 [|d1 [|d2 rest]]]; simpl;
    try (split; [intros _; lia | intros _; exact Hsel]).
  split; [|intros E; now elim E].
  intros Hr. apply filter_In in Hr. destruct Hr as [_ Hr].
  apply in_range_true in Hr. destruct Hr as (d & E & _). congruence.
Qed.

Lemma undated_row_kept_iff_no_range_witness :
  In undated (@filter_data insertion_sort_values
                [undated; sample "US" 20210101 (qc 100) (qc 2)] "US"
                [20210101]).
Proof.
  apply (proj2 (@undated_row_kept_iff_no_range insertion_sort_values
                  [undated; sample "US" 20210101 (qc 100) (qc 2)]
                  "US"%string [20210101] undated
                  (or_introl eq_refl) eq_refl eq_refl)).
  simpl. lia.
Defined.

(** X13.  Widening a two-bound date range never loses a row: every row
    of the series for [d0, d1] is in the series for any range that
    contains it, and in the series for a range without two bounds. *)
Theorem wider_range_keeps_rows `{SortValues} (df : list Row)
    (country : string) (d0 d1 e0 e1 : Z) (r : Row) :
  e0 <= d0 -> d1 <= e1 ->
  In r (filter_data df country [d0; d1]) ->
  In r (filter_data df country [e0; e1]) /\
  forall date_range, List.length date_range <> 2%nat ->
                     In r (filter_data df country date_range).
Proof.
  intros H0 H1 Hin.
  apply filter_data_range_In in Hin.
  destruct Hin as (Hdf & Hloc & d & Hd & Hrange).
  split.
  - apply filter_data_range_In. split; [exact Hdf|]. split; [exact Hloc|].
    exists d. split; [exact Hd | lia].
  - intros date_range Hlen. rewrite filter_data_no_range by exact Hlen.
    apply (Permutation_in _ (sort_values_perm _)).
    apply filter_In. split; [exact Hdf | now apply location_is_true].
Qed.

Lemma wider_range_keeps_rows_witness :
  In (sample "France" 20210301 (qc 10) (qc 1))
     (@filter_data insertion_sort_values two_countries "France"
        [20210101; 20211231]).
Proof.
  destruct (@wider_range_keeps_rows insertion_sort_values two_countries
              "France"%string 20210301 20210331 20210101 20211231
              (sample "France" 20210301 (qc 10) (qc 1)))
    as [Hin _].
  - lia.
  - lia.
  - vm_compute. left. reflexivity.
  - exact Hin.
Defined.

Lemma min_date_le (df : list Row) (r : Row) (d : Z) :
  In r df -> date r = Some d ->
  exists lo, min_date df = Some lo /\ lo <= d.
Proof.
  induction df as [|x df IH]; [intros []|].
  intros [->|Hin] Hd; simpl.
  - rewrite Hd. destruct (min_date df) as [m|]; simpl.
    + exists (Z.min d m). split; [reflexivity | lia].
    + exists d. split; [reflexivity | lia].
  - destruct (IH Hin Hd) as (lo & Hlo & Hle). rewrite Hlo.
    destruct (date x) as [y|]; simpl.
    + exists (Z.min y lo). split; [reflexivity | lia].
    + exists lo. split; [reflexivity | exact Hle].
Qed.

Lemma max_date_ge (df : list Row) (r : Row) (d : Z) :
  In r df -> date r = Some d ->
  exists hi, max_date df = Some hi /\ d <= hi.
Proof.
  induction df as [|x df IH]; [intros []|].
  intros [->|Hin] Hd; simpl.
  - rewrite Hd. destruct (max_date df) as [m|]; simpl.
    + exists (Z.max d m). split; [reflexivity | lia].
    + exists d. split; [reflexivity | lia].
  - destruct (IH Hin Hd) as (hi & Hhi & Hle). rewrite Hhi.
    destruct (date x) as [y|]; simpl.
    + exists (Z.max y hi). split; [reflexivity | lia].
    + exists hi. split; [reflexivity | exact Hle].
Qed.

(** X14.  With the bounds the date widget starts from, the smallest and
    the largest date of the data set, the filtered series holds exactly
    the rows of the selected country that have a date. *)
Theorem default_range_keeps_dated_rows `{SortValues} (df : list Row)
    (country : string) (lo hi : Z) (r : Row) :
  min_date df = Some lo -> max_date df = Some hi ->
  (In r (filter_data df country [lo; hi])
   <-> In r df /\ location r = Some country /\ date r <> None).
Proof.
  intros Hlo Hhi. rewrite filter_data_range_In. split.
  - intros (Hin & Hloc & d & Hd & _). repeat split; congruence.
  - intros (Hin & Hloc & Hd). split; [exact Hin|]. split; [exact Hloc|].
    destruct (date r) as [d|] eqn:E; [|congruence].
    exists d. split; [reflexivity|].
    destruct (min_date_le df r d Hin E) as (lo' & Hlo' & Hle).
    destruct (max_date_ge df r d Hin E) as (hi' & Hhi' & Hge).
    rewrite Hlo in Hlo'. rewrite Hhi in Hhi'.
    injection Hlo' as <-. injection Hhi' as <-. lia.
Qed.

Lemma default_range_keeps_dated_rows_witness :
  In (sample "France" 20210301 (qc 10) (qc 1))
     (@filter_data insertion_sort_values two_countries "France"
        [20210101; 20210301]).
Proof.
  apply (proj2 (@default_range_keeps_dated_rows insertion_sort_values
                  two_countries "France"%string 20210101 20210301
                  (sample "France" 20210301 (qc 10) (qc 1))
                  eq_refl eq_refl)).
  split; [right; left; reflexivity|]. split; [reflexivity | discriminate].
Defined.

(** ** The country select box *)

Lemma dropna_In (l : list (option string)) (s : string) :
  In s (dropna l) <-> In (Some s) l.
Proof.
  induction l as [|[t|] l IH]; simpl; [tauto | |].
  - rewrite IH. split; intros [E|Hin]; auto; left; congruence.
  - rewrite IH. split; [auto | intros [E|Hin]; [discriminate | auto]].
Qed.

Lemma unique_In (l : list string) (s : string) :
  In s (unique l) <-> In s l.
Proof.
  induction l as [|x l IH]; simpl; [tauto|].
  rewrite filter_In, IH, negb_true_iff, String.eqb_neq.
  destruct (String.eqb_spec x s) as [->|Hne]; [tauto|].
  split; [tauto|]. intros [E|Hin]; [congruence|]. right. split; congruence.
Qed.

Lemma unique_NoDup (l : list string) : NoDup (unique l).
Proof.
  induction l as [|x l IH]; simpl; constructor.
  - rewrite filter_In, negb_true_iff, String.eqb_neq. tauto.
  - now apply NoDup_filter.
Qed.

Lemma insert_string_perm (s : string) (l : list string) :
  Permutation (s :: l) (insert_string s l).
Proof.
  induction l as [|t l IH]; simpl; [auto|].
  destruct (String.leb s t); [auto|].
  eapply perm_trans; [apply perm_swap|]. auto.
Qed.

Lemma sorted_perm (l : list string) : Permutation l (sorted l).
Proof.
  induction l as [|s l IH]; simpl; [auto|].
  eapply perm_trans; [|apply insert_string_perm]. auto.
Qed.

Lemma insert_string_sorted (s : string) (l : list string) :
  Sorted string_le l -> Sorted string_le (insert_string s l).
Proof.
  induction 1 as [|t l Hs IH Hhd]; simpl.
  - repeat constructor.
  - destruct (String.leb s t) eqn:E.
    + repeat constructor; assumption.
    + constructor; [exact IH|].
      assert (Hts : string_le t s)
        by (destruct (String.leb_total s t); [congruence | assumption]).
      destruct l as [|u l]; simpl; [constructor; exact Hts|].
      destruct (String.leb s u); constructor;
        [exact Hts | now inversion Hhd].
Qed.

Lemma sorted_is_sorted (l : list string) : Sorted string_le (sorted l).
Proof.
  induction l as [|s l IH]; simpl; [constructor|].
  now apply insert_string_sorted.
Qed.

Lemma country_options_In (df : list Row) (c : string) :
  In c (country_options df) <-> exists r, In r df /\ location r = Some c.
Proof.
  unfold country_options, countries. split.
  - intros Hin.
    apply (Permutation_in _ (Permutation_sym (sorted_perm _))) in Hin.
    apply unique_In, dropna_In, in_map_iff in Hin.
    destruct Hin as (r & Hloc & Hr). now exists r.
  - intros (r & Hr & Hloc).
    apply (Permutation_in _ (sorted_perm _)).
    apply unique_In, dropna_In, in_map_iff. now exists r.
Qed.

(** X15.  The select box offers exactly the locations that some row of
    the data set carries, each once, in ascending order. *)
Theorem country_options_are_the_locations (df : list Row) :
  (forall c, In c (country_options df)
             <-> exists r, In r df /\ location r = Some c) /\
  NoDup (country_options df) /\
  Sorted string_le (country_options df).
Proof.
  split; [intros c; apply country_options_In|]. split.
  - apply (Permutation_NoDup (sorted_perm _)), unique_NoDup.
  - apply sorted_is_sorted.
Qed.

Lemma country_options_are_the_locations_witness :
  In "France"%string (country_options two_countries).
Proof.
  apply (proj2 (proj1 (country_options_are_the_locations two_countries)
                  "France"%string)).
  exists (sample "France" 20210301 (qc 10) (qc 1)).
  split; [right; left; reflexivity | reflexivity].
Defined.

(** X16.  For a country the select box offers and a date range that
    does not have two bounds, the run completes: the filtered series is
    not empty and no exception is raised. *)
Theorem offered_country_run_completes `{SortValues} (df : list Row)
    (country : string) (date_range : list Z)
    (show_trends show_moving_avg : bool) :
  In country (country_options df) ->
  List.length date_range <> 2%nat ->
  filter_data df country date_range <> [] /\
  exists g, dashboard df country date_range show_trends show_moving_avg
            = Ok g.
Proof.
  intros Hoffered Hlen.
  apply country_options_In in Hoffered.
  destruct Hoffered as (r & Hr & Hloc).
  assert (Hne : filter_data df country date_range <> []).
  { intros E.
    assert (Hin : In r (filter_data df country date_range)).
    { rewrite filter_data_no_range by exact Hlen.
      apply (Permutation_in _ (sort_values_perm _)).
      apply filter_In. split; [exact Hr | now apply location_is_true]. }
    rewrite E in Hin. exact Hin. }
  split; [exact Hne|].
  destruct (dashboard_state df country date_range show_trends
              show_moving_avg Hne) as (r0 & rate & _ & _ & Hrun).
  eexists. exact Hrun.
Qed.

Lemma offered_country_run_completes_witness :
  exists g, @dashboard insertion_sort_values two_countries "France" []
              true false = Ok g.
Proof.
  destruct (@offered_country_run_completes insertion_sort_values
              two_countries "France"%string [] true false)
    as [_ Hrun].
  - vm_compute. left. reflexivity.
  - simpl. lia.
  - exact Hrun.
Defined.

(** ** Moving averages: bounds and the reach of a missing value *)

Lemma Qc_of_nat_S (n : nat) : Qc_of_nat (S n) = (Qc_of_nat n + 1)%Qc.
Proof.
  unfold Qc_of_nat, Qcplus. apply Q2Qc_eq_iff.
  cbn [this Q2Qc]. rewrite !Qred_correct.
  rewrite Nat2Z.inj_succ, <- Z.add_1_r, inject_Z_plus. reflexivity.
Qed.

Lemma Qc_sum_upper (vs : list Qc) (hi : Qc) :
  (forall v, In v vs -> (v <= hi)%Qc) ->
  (Qc_sum vs <= hi * Qc_of_nat (List.length vs))%Qc.
Proof.
  induction vs as [|v vs IH]; intros Hall.
  - simpl. change (Qc_of_nat 0) with 0%Qc. rewrite Qcmult_0_r.
    apply Qcle_refl.
  - cbn [Qc_sum fold_right List.length]. fold (Qc_sum vs).
    rewrite Qc_of_nat_S.
    replace (hi * (Qc_of_nat (List.length vs) + 1))%Qc
      with (hi + hi * Qc_of_nat (List.length vs))%Qc by ring.
    apply Qcplus_le_compat.
    + apply Hall. now left.
    + apply IH. intros w Hw. apply Hall. now right.
Qed.

Lemma Qc_sum_lower (vs : list Qc) (lo : Qc) :
  (forall v, In v vs -> (lo <= v)%Qc) ->
  (lo * Qc_of_nat (List.length vs) <= Qc_sum vs)%Qc.
Proof.
  induction vs as [|v vs IH]; intros Hall.
  - simpl. change (Qc_of_nat 0) with 0%Qc. rewrite Qcmult_0_r.
    apply Qcle_refl.
  - cbn [Qc_sum fold_right List.length]. fold (Qc_sum vs).
    rewrite Qc_of_nat_S.
    replace (lo * (Qc_of_nat (List.length vs) + 1))%Qc
      with (lo + lo * Qc_of_nat (List.length vs))%Qc by ring.
    apply Qcplus_le_compat.
    + apply Hall. now left.
    + apply IH. intros w Hw. apply Hall. now right.
Qed.

(** X17.  A defined 7-day average lies between the smallest and the
    largest value of its window: if the 7 values at i - 6 .. i are
    present and all within [lo, hi], so is the average at i. *)
Theorem rolling_mean_within_window_bounds (xs : list float) (i : nat)
    (vs : list Qc) (lo hi : Qc) :
  (i < List.length xs)%nat -> (6 <= i)%nat ->
  firstn 7 (skipn (i - 6) xs) = map Fin vs ->
  (forall v, In v vs -> (lo <= v)%Qc /\ (v <= hi)%Qc) ->
  exists m, nth_error (rolling_mean 7 xs) i = Some (Fin m) /\
            (lo <= m)%Qc /\ (m <= hi)%Qc.
Proof.
  intros Hi H6 Hwin Hall.
  destruct (rolling_mean_7 xs i Hi) as (x & Hx & Hdef & _).
  exists (Qc_sum vs / Qc_of_nat 7)%Qc.
  split; [rewrite Hx; f_equal; now apply Hdef|].
  assert (Hlen : List.length vs = 7%nat).
  { rewrite <- (length_map Fin vs), <- Hwin, length_firstn, length_skipn.
    lia. }
  assert (H7 : (0 < Qc_of_nat 7)%Qc) by reflexivity.
  assert (H7' : Qc_of_nat 7 <> Q2Qc 0) by (vm_compute; discriminate).
  split; apply (Qcmult_lt_0_le_reg_r _ _ (Qc_of_nat 7) H7);
    rewrite Qc_div_mult_cancel by exact H7'; rewrite <- Hlen.
  - apply Qc_sum_lower. intros v Hv. now apply Hall.
  - apply Qc_sum_upper. intros v Hv. now apply Hall.
Qed.

Lemma rolling_mean_within_window_bounds_witness :
  exists m,
    nth_error (rolling_mean 7 (column new_cases eight_days)) 6
    = Some (Fin m) /\
    (Q2Qc (inject_Z 7) <= m)%Qc /\ (m <= Q2Qc (inject_Z 49))%Qc.
Proof.
  apply (rolling_mean_within_window_bounds (column new_cases eight_days) 6
           (map (fun n => Q2Qc (inject_Z n)) [7; 14; 21; 28; 35; 42; 49])).
  - simpl. lia.
  - lia.
  - reflexivity.
  - intros v Hv. simpl in Hv.
    repeat (destruct Hv as [<-|Hv];
            [split; vm_compute; discriminate|]).
    destruct Hv.
Defined.

(** X18.  A value that is missing at index j leaves the 7-day average
    undefined at every index from j to j + 6: each of those windows
    contains it. *)
Theorem missing_value_blanks_seven_averages (xs : list float) (i j : nat)
    (x : float) :
  nth_error xs j = Some x -> observation x = None ->
  (i < List.length xs)%nat -> (j <= i)%nat -> (i <= j + 6)%nat ->
  nth_error (rolling_mean 7 xs) i = Some NaN.
Proof.
  intros Hj Hx Hi Hji Hij.
  destruct (rolling_mean_7 xs i Hi) as (y & Hy & _ & Hundef).
  rewrite Hy. f_equal. apply Hundef.
  destruct (Nat.lt_ge_cases i 6) as [Hs|H6]; [now left | right].
  intros [vs Hwin].
  assert (Hoff : nth_error (firstn 7 (skipn (i - 6) xs)) (j - (i - 6))
                 = Some x).
  { rewrite nth_error_firstn.
    replace (j - (i - 6) <? 7)%nat with true
      by (symmetry; apply Nat.ltb_lt; lia).
    rewrite nth_error_skipn.
    replace (i - 6 + (j - (i - 6)))%nat with j by lia. exact Hj. }
  rewrite Hwin, nth_error_map in Hoff.
  destruct (nth_error vs (j - (i - 6))) as [v|]; [|discriminate].
  injection Hoff as <-. discriminate Hx.
Qed.

Lemma missing_value_blanks_seven_averages_witness :
  nth_error (rolling_mean 7 (column new_cases gap_week)) 7 = Some NaN.
Proof.
  apply (missing_value_blanks_seven_averages
           (column new_cases gap_week) 7 1 NaN eq_refl eq_refl).
  - simpl. lia.
  - lia.
  - lia.
Defined.

(** X19.  When moving averages are enabled and the filtered series has
    more than 7 records, the 7-day average of new_deaths is assigned to
    [filtered_df] as well, with the same rule: defined at i exactly
    when i >= 6 and the 7 values at i - 6 .. i are present, and then
    their arithmetic mean. *)
Theorem moving_average_of_deaths (g : Globals) (i : nat) :
  (7 < List.length (rows (filtered_df g)))%nat ->
  (i < List.length (rows (filtered_df g)))%nat ->
  let window :=
    firstn 7 (skipn (i - 6) (column new_deaths (rows (filtered_df g)))) in
  exists g' col x,
    moving_averages true g = Ok g' /\
    assigned_column "new_deaths_ma" (filtered_df g') = Some col /\
    nth_error col i = Some x /\
    (forall vs, (6 <= i)%nat -> window = map Fin vs ->
                x = Fin (Qc_sum vs / Qc_of_nat 7)%Qc) /\
    ((i < 6)%nat \/ ~ (exists vs, window = map Fin vs) -> x = NaN).
Proof.
  intros Hlen Hi window.
  destruct (moving_averages_run g Hlen) as (g' & Hrun & _ & _ & Hcol).
  destruct (rolling_mean_7 (column new_deaths (rows (filtered_df g))) i)
    as (x & Hx & Hdef & Hundef).
  { unfold column. now rewrite length_map. }
  exists g', (rolling_mean 7 (column new_deaths (rows (filtered_df g)))), x.
  repeat (split; [assumption|]). exact Hundef.
Qed.

Lemma moving_average_of_deaths_witness :
  exists g' col,
    moving_averages true (series_of eight_days) = Ok g' /\
    assigned_column "new_deaths_ma" (filtered_df g') = Some col /\
    nth_error col 3 = Some NaN.
Proof.
  destruct (moving_average_of_deaths (series_of eight_days) 3)
    as (g' & col & x & Hrun & Hcol & Hx & _ & Hundef);
    [simpl; lia | simpl; lia |].
  exists g', col. split; [exact Hrun|]. split; [exact Hcol|].
  rewrite Hx. f_equal. apply Hundef. left. lia.
Defined.

(** ** The profile cards *)

Lemma filter_last_split {A : Type} (f : A -> bool) (l l' : list A) (r : A) :
  filter f l = l' ++ [r] ->
  f r = true /\
  exists l1 l2, l = l1 ++ r :: l2 /\ forall x, In x l2 -> f x = false.
Proof.
  revert l'. induction l as [|x l IH] using rev_ind; intros l' E.
  - destruct l'; discriminate E.
  - rewrite filter_app in E. simpl in E.
    destruct (f x) eqn:Hx; simpl in E.
    + apply app_inj_tail in E. destruct E as [_ <-].
      split; [exact Hx|]. exists l, []. split; [reflexivity | intros y []].
    + rewrite app_nil_r in E.
      destruct (IH l' E) as (Hr & l1 & l2 & Hl & Hnone).
      split; [exact Hr|]. exists l1, (l2 ++ [x]). split.
      * rewrite Hl, <- app_assoc. reflexivity.
      * intros y Hy. apply in_app_or in Hy.
        destruct Hy as [Hy|[<-|[]]]; [now apply Hnone | exact Hx].
Qed.

Lemma has_profile_true (r : Row) :
  has_profile r = true
  <-> median_age r <> None /\ population_density r <> None /\
      gdp_per_capita r <> None.
Proof.
  unfold has_profile.
  destruct (median_age r), (population_density r), (gdp_per_capita r);
    split; intros Hyp; try discriminate Hyp; try reflexivity;
    try (repeat split; discriminate);
    destruct Hyp as (Ha & Hb & Hc); congruence.
Qed.

(** X20.  On a non-empty filtered series the profile cards read the
    last row that has median_age, population_density and gdp_per_capita
    all present, which need not be the snapshot row; they are left out
    exactly when no row of the series has all three. *)
Theorem profile_cards_row `{SortValues} (df : list Row) (country : string)
    (date_range : list Z) (show_trends show_moving_avg : bool) :
  filter_data df country date_range <> [] ->
  exists g p,
    dashboard df country date_range show_trends show_moving_avg = Ok g /\
    latest g = Some p /\
    (forall r, p = Some r ->
       median_age r <> None /\ population_density r <> None /\
       gdp_per_capita r <> None /\
       exists l1 l2,
         filter_data df country date_range = l1 ++ r :: l2 /\
         forall x, In x l2 -> has_profile x = false) /\
    (p = None <->
     forall x, In x (filter_data df country date_range) ->
               has_profile x = false).
Proof.
  intros Hne.
  destruct (dashboard_state df country date_range show_trends
              show_moving_avg Hne) as (r0 & rate & _ & _ & Hrun).
  eexists. eexists. split; [exact Hrun|]. simpl.
  split; [reflexivity|]. unfold profile_row.
  destruct (iloc_last (filter has_profile
                         (filter_data df country date_range)))
    as [r|e] eqn:Hr.
  - destruct (iloc_last_inv _ _ Hr) as [l' Hl'].
    destruct (filter_last_split _ _ _ _ Hl') as (Hp & l1 & l2 & Hl & Hnone).
    split.
    + intros r' E. injection E as <-.
      apply has_profile_true in Hp. destruct Hp as (Ha & Hb & Hc).
      repeat (split; [assumption|]). now exists l1, l2.
    + split; [discriminate|]. intros Hall.
      assert (Hin : In r (filter_data df country date_range))
        by (rewrite Hl; apply in_or_app; right; now left).
      rewrite (Hall r Hin) in Hp. discriminate Hp.
  - apply iloc_last_empty in Hr. split; [discriminate|].
    split; [|reflexivity]. intros _ x Hx.
    destruct (has_profile x) eqn:E; [|reflexivity].
    assert (Hin : In x (filter has_profile
                          (filter_data df country date_range)))
      by (apply filter_In; now split).
    rewrite Hr in Hin. destruct Hin.
Qed.

Lemma profile_cards_row_witness :
  exists g,
    @dashboard insertion_sort_values two_countries "US" [] true false = Ok g /\
    latest g = Some None.
Proof.
  destruct (@profile_cards_row insertion_sort_values two_countries
              "US"%string [] true false)
    as (g & p & Hrun & Hl & _ & Hnone).
  - vm_compute. discriminate.
  - exists g. split; [exact Hrun|]. rewrite Hl. f_equal.
    apply Hnone. intros x Hx. vm_compute in Hx.
    destruct Hx as [<-|[]]. reflexivity.
Defined.

(** ** More on runs *)

(** X21.  With a two-bound date range and a non-empty filtered series,
    the snapshot is a row of the data set, of the selected country, with
    a date inside the range. *)
Theorem snapshot_within_range `{SortValues} (df : list Row)
    (country : string) (d0 d1 : Z) (show_trends show_moving_avg : bool) :
  filter_data df country [d0; d1] <> [] ->
  exists g r d,
    dashboard df country [d0; d1] show_trends show_moving_avg = Ok g /\
    latest_data g = Some r /\
    In r df /\ location r = Some country /\
    date r = Some d /\ d0 <= d <= d1.
Proof.
  intros Hne.
  destruct (dashboard_state df country [d0; d1] show_trends
              show_moving_avg Hne) as (r & rate & Hr & _ & Hrun).
  destruct (iloc_last_inv _ _ Hr) as [l Hl].
  assert (Hin : In r (filter_data df country [d0; d1]))
    by (rewrite Hl; apply in_or_app; right; now left).
  apply filter_data_range_In in Hin.
  destruct Hin as (Hdf & Hloc & d & Hd & Hrange).
  eexists. exists r, d. split; [exact Hrun|].
  split; [reflexivity|]. repeat (split; [assumption|]). exact Hrange.
Qed.

Lemma snapshot_within_range_witness :
  exists g r d,
    @dashboard insertion_sort_values two_countries "US"
      [20210101; 20210131] true false = Ok g /\
    latest_data g = Some r /\ date r = Some d /\ 20210101 <= d <= 20210131.
Proof.
  destruct (@snapshot_within_range insertion_sort_values two_countries
              "US"%string 20210101 20210131 true false)
    as (g & r & d & Hrun & Hl & _ & _ & Hd & Hrange).
  - vm_compute. discriminate.
  - exists g, r, d. repeat (split; [assumption|]). exact Hrange.
Defined.

(** X22.  A run raises the [NameError] on [latest_data] whenever the
    selected country has no row in the data set, and whenever the date
    range has its start after its end. *)
Theorem run_raises_on_absent_or_inverted `{SortValues} (df : list Row)
    (country : string) (date_range : list Z)
    (show_trends show_moving_avg : bool) :
  (forall r, In r df -> location r <> Some country) \/
  (exists start stop, date_range = [start; stop] /\ stop < start) ->
  dashboard df country date_range show_trends show_moving_avg
  = Raise (NameError "latest_data").
Proof.
  intros [Habsent|(start & stop & -> & Hlt)]; apply dashboard_empty.
  - now apply absent_entity_empty.
  - unfold filter_data. apply filter_all_false.
    intros r. now apply in_range_inverted.
Qed.

Lemma run_raises_on_absent_or_inverted_witness :
  @dashboard insertion_sort_values two_countries "US" [20210201; 20210101]
    true false
  = Raise (NameError "latest_data").
Proof.
  apply (@run_raises_on_absent_or_inverted insertion_sort_values
           two_countries "US"%string [20210201; 20210101] true false).
  right. exists 20210201, 20210101. split; [reflexivity | lia].
Defined.

(** X23.  The vaccination rate is not capped: when people_vaccinated
    exceeds a positive population the rate is a finite number above
    100. *)
Theorem vaccination_rate_above_100 (r : Row) (v p : Qc) :
  people_vaccinated r = Some v -> population r = Some p ->
  (Q2Qc 0 < p)%Qc -> (p < v)%Qc ->
  exists q, compute_vaccination_rate r = Ok (Fin q) /\ (hundred < q)%Qc.
Proof.
  intros Hv Hp Hpos Hlt.
  exists (v / p * hundred)%Qc. split.
  - unfold compute_vaccination_rate. rewrite both_present_vaccination.
    rewrite Hv, Hp. unfold getitem; simpl. rewrite Hv, Hp; simpl.
    now rewrite (Qc_pos_not_zero p Hpos).
  - assert (Hp0 : p <> Q2Qc 0)
      by (intros ->; exact (Qclt_not_eq _ _ Hpos eq_refl)).
    assert (Hratio : (1 < v / p)%Qc).
    { apply Qcnot_le_lt. intros Hle.
      apply (Qcmult_le_compat_r _ _ p) in Hle;
        [|now apply Qclt_le_weak].
      rewrite Qc_div_mult_cancel, Qcmult_1_l in Hle by exact Hp0.
      exact (Qclt_not_le _ _ Hlt Hle). }
    replace hundred with (1 * hundred)%Qc at 1 by apply Qcmult_1_l.
    apply Qcmult_lt_compat_r; [reflexivity | exact Hratio].
Qed.

Lemma vaccination_rate_above_100_witness :
  exists q,
    compute_vaccination_rate (with_vaccination (qc 1200) (qc 1000))
    = Ok (Fin q) /\ (hundred < q)%Qc.
Proof.
  apply (vaccination_rate_above_100
           (with_vaccination (qc 1200) (qc 1000))
           (Q2Qc (inject_Z 1200)) (Q2Qc (inject_Z 1000)) eq_refl eq_refl).
  - reflexivity.
  - reflexivity.
Defined.
